(** * Panda Royale score sheet: scoring, round locking and export

    A shallow embedding of the score-sheet logic of the [App] component
    (row scoring, CSV export, the field setters and their numeric
    coercion, round completion, loading a saved snapshot), with the
    properties of its specification stated over it.

    Numbers.  The fields of a round hold JavaScript numbers.  [value]
    has a constructor for the integers, for the negative zero, for NaN,
    for the two infinities, and for [undefined], the value of a property
    that is absent.  A finite number is an integer [Num z]; it stands
    for a JavaScript number when [z] is one of the integers a double
    holds (every integer up to 2^53 in magnitude; the setters of the
    sheet store at most three digits).  Sums and products are rounded
    to the nearest double, to infinity beyond the largest one, as the
    machine does ([round_double]).  Numbers with a fraction, and fields
    of other types (a string or [null] in a snapshot edited by hand),
    are not modelled in a round. *)

From Stdlib Require Import ZArith List String Ascii Bool Lia DecimalString.
From Stdlib Require DecimalPos DecimalZ.
From stdpp Require Import base list.

Local Open Scope Z_scope.

(** ** JavaScript values held by the sheet *)

Inductive value : Type :=
| Num (z : Z)            (* a finite integral number *)
| NegZero                (* -0 *)
| NaN
| Infinity (neg : bool)  (* Infinity, or -Infinity when [neg] *)
| Undefined.             (* the value of an absent property *)

(** Unary plus, [+n]. *)
Definition to_number (v : value) : value :=
  match v with
  | Undefined => NaN
  | _ => v
  end.

(** [Number.isFinite]. *)
Definition Number_isFinite (v : value) : bool :=
  match v with
  | Num _ | NegZero => true
  | _ => false
  end.

(** Truthiness, as [||] and [!!] read it. *)
Definition truthy (v : value) : bool :=
  match v with
  | Num z => negb (z =? 0)
  | Infinity _ => true
  | NegZero | NaN | Undefined => false
  end.

(** [a || b]. *)
Definition js_or (a b : value) : value := if truthy a then a else b.

Definition is_nan (v : value) : bool :=
  match v with NaN => true | _ => false end.

Definition is_inf (v : value) : bool :=
  match v with Infinity _ => true | _ => false end.

Definition is_neg (v : value) : bool :=
  match v with
  | Num z => z <? 0
  | NegZero => true
  | Infinity s => s
  | _ => false
  end.

(** The integer a finite number denotes; both zeros denote 0. *)
Definition mag (v : value) : Z :=
  match v with
  | Num z => z
  | _ => 0
  end.

Definition signed_zero (neg : bool) : value :=
  if neg then NegZero else Num 0.

(** Doubles.  Every integer below 2^53 in magnitude is a double.  From
    2^53 on, a double has 53 significant bits: the integer [z] is
    rounded to the nearest multiple of [2^e] with [e = log2 |z| - 52],
    the even one of two that are equally near, and to an infinity when
    that is 2^1024 or more. *)
Definition max_exact : Z := 9007199254740992.

Definition round_double (z : Z) : value :=
  let a := Z.abs z in
  if a <? max_exact then Num z
  else
    let e := Z.log2 a - 52 in
    let q := a / 2 ^ e in
    let r := a mod 2 ^ e in
    let half := 2 ^ (e - 1) in
    let q' := if (half <? r) || ((r =? half) && Z.odd q) then q + 1 else q in
    let m := q' * 2 ^ e in
    if 2 ^ 1024 <=? m then Infinity (z <? 0) else Num (Z.sgn z * m).

(** [a * b]. *)
Definition js_mul (a b : value) : value :=
  let a := to_number a in
  let b := to_number b in
  if is_nan a || is_nan b then NaN
  else
    let neg := xorb (is_neg a) (is_neg b) in
    if is_inf a || is_inf b then
      if (Number_isFinite a && (mag a =? 0)) || (Number_isFinite b && (mag b =? 0))
      then NaN else Infinity neg
    else
      let p := mag a * mag b in
      if p =? 0 then signed_zero neg else round_double p.

(** [a + b] on numbers. *)
Definition js_add (a b : value) : value :=
  match to_number a, to_number b with
  | Num x, Num z => round_double (x + z)
  | Num x, NegZero => Num x
  | NegZero, Num z => Num z
  | NegZero, NegZero => NegZero
  | Infinity s, Infinity t => if Bool.eqb s t then Infinity s else NaN
  | Infinity s, (Num _ | NegZero) => Infinity s
  | (Num _ | NegZero), Infinity t => Infinity t
  | _, _ => NaN
  end.

(** Unary minus, [-a]. *)
Definition js_neg (a : value) : value :=
  match to_number a with
  | Num z => if z =? 0 then NegZero else Num (- z)
  | NegZero => Num 0
  | Infinity s => Infinity (negb s)
  | _ => NaN
  end.

(** [Math.min(a, b)] and [Math.max(a, b)]. *)
Definition Math_min (a b : value) : value :=
  let a := to_number a in
  let b := to_number b in
  if is_nan a || is_nan b then NaN
  else match a, b with
       | Infinity true, _ | _, Infinity true => Infinity true
       | Infinity false, _ => b
       | _, Infinity false => a
       | _, _ =>
           if mag a <? mag b then a
           else if mag b <? mag a then b
           else if is_neg a then a else b
       end.

Definition Math_max (a b : value) : value :=
  let a := to_number a in
  let b := to_number b in
  if is_nan a || is_nan b then NaN
  else match a, b with
       | Infinity false, _ | _, Infinity false => Infinity false
       | Infinity true, _ => b
       | _, Infinity true => a
       | _, _ =>
           if mag b <? mag a then a
           else if mag a <? mag b then b
           else if is_neg a then b else a
       end.

(** ** Rounds *)

Definition ROUNDS : nat := 10.

(** [const clampNum = (n) => (Number.isFinite(+n) ? +n : 0)] *)
Definition clampNum (n : value) : value :=
  if Number_isFinite (to_number n) then to_number n else Num 0.

Record row : Type := mkRow {
  y : value;
  purp : value;
  blue : value;
  redSum : value;
  redCount : value;
  green : value;
  clear : value;
  pink : value;
  locked : bool
}.

Definition makeBlankRow : row :=
  {| y := Num 0; purp := Num 0; blue := Num 0; redSum := Num 0;
     redCount := Num 0; green := Num 0; clear := Num 0; pink := Num 0;
     locked := false |}.

(** [Array.from({ length: n }, makeBlankRow)] *)
Definition makeBlankRows (n : nat) : list row := replicate n makeBlankRow.

(** ** Calculations *)

Definition computeRowTotal (r : row) (hasGlitterBlue : bool) : value :=
  let y_ := clampNum (y r) in
  let p := js_mul (clampNum (purp r)) (Num 2) in
  let b := js_mul (clampNum (blue r)) (if hasGlitterBlue then Num 2 else Num 1) in
  let red := js_mul (clampNum (redSum r)) (clampNum (redCount r)) in
  let g := clampNum (green r) in
  let c := clampNum (clear r) in
  let k := clampNum (pink r) in
  js_add (js_add (js_add (js_add (js_add (js_add y_ p) b) red) g) c) k.

(** [rows.map((r) => computeRowTotal(r, hasGlitterBlue))] *)
Definition rowTotals (rows : list row) (hasGlitterBlue : bool) : list value :=
  map (fun r => computeRowTotal r hasGlitterBlue) rows.

(** [rowTotals.reduce((a, b) => a + b, 0)] *)
Definition gameTotal (rows : list row) (hasGlitterBlue : bool) : value :=
  fold_left js_add (rowTotals rows hasGlitterBlue) (Num 0).

(** [rows.every((r) => r.locked)] *)
Definition allLocked (rows : list row) : bool := forallb locked rows.

(** ** Numeric coercion of typed text

    The handlers of [CellNumber], [NumberInput] and of the default
    red-dice input read the text of an input element.  A JavaScript
    string is modelled by [string]; the only characters the handlers
    tell apart are the ASCII digits and a leading ["-"], every other
    character (whatever its encoding) is deleted by [/\D+/g]. *)

Local Open Scope string_scope.
Local Open Scope Z_scope.

Definition is_digit (c : ascii) : bool :=
  let n := nat_of_ascii c in
  (Nat.leb 48 n) && (Nat.leb n 57).

Definition digit_val (c : ascii) : Z := Z.of_nat (nat_of_ascii c) - 48.

(** [s.replace(/\D+/g, "")] *)
Fixpoint strip_non_digits (s : string) : string :=
  match s with
  | EmptyString => EmptyString
  | String c t =>
      if is_digit c then String c (strip_non_digits t) else strip_non_digits t
  end.

(** [s.slice(0, n)] *)
Fixpoint slice_to (n : nat) (s : string) : string :=
  match n, s with
  | S m, String c t => String c (slice_to m t)
  | _, _ => EmptyString
  end.

(** [s.startsWith("-")] *)
Definition startsWith_minus (s : string) : bool :=
  match s with
  | String c _ => Ascii.eqb c "-"
  | EmptyString => false
  end.

(** [s.slice(1)] *)
Definition slice_from_1 (s : string) : string :=
  match s with
  | String _ t => t
  | EmptyString => EmptyString
  end.

Definition is_empty (s : string) : bool :=
  match s with EmptyString => true | _ => false end.

(** The longest prefix of digits, and the number a digit run denotes. *)
Fixpoint digit_prefix (s : string) : string :=
  match s with
  | String c t => if is_digit c then String c (digit_prefix t) else EmptyString
  | EmptyString => EmptyString
  end.

Fixpoint digits_value (acc : Z) (s : string) : Z :=
  match s with
  | String c t => digits_value (10 * acc + digit_val c) t
  | EmptyString => acc
  end.

(** [parseInt(s, 10)]: an optional sign, then the longest run of digits;
    [NaN] when there is no digit, and [-0] for a negated zero.  (The
    white space [parseInt] would skip first does not occur in the
    arguments built below, which hold three digits at most: the number
    read is exact.) *)
Definition parseInt (s : string) : value :=
  let neg := startsWith_minus s in
  let rest :=
    match s with
    | String c t => if Ascii.eqb c "-" || Ascii.eqb c "+" then t else s
    | EmptyString => s
    end in
  let ds := digit_prefix rest in
  if is_empty ds then NaN
  else
    let n := digits_value 0 ds in
    if n =? 0 then signed_zero neg else Num (if neg then - n else n).

(** The body shared by the [handle] functions of [CellNumber] and
    [NumberInput], after the [disabled] test: the value passed to
    [onChange].  [NumberInput] always looks for the sign; [CellNumber]
    only when [allowNegative]. *)
Definition coerce (allowNegative : bool) (value_ : string) : value :=
  let raw := value_ in
  let sign := allowNegative && startsWith_minus raw in
  let raw := if sign then slice_from_1 raw else raw in
  let digits := slice_to 3 (strip_non_digits raw) in
  if is_empty digits && sign then NegZero
  else
    let n := parseInt ((if sign then "-" else "")
                         ++ (if is_empty digits then "0" else digits)) in
    if Number_isFinite n then n else Num 0.

(** [handle] of [CellNumber]: [None] when it returns without calling
    [onChange], [Some v] when it calls [onChange(v)]. *)
Definition CellNumber_handle (allowNegative disabled : bool) (value_ : string)
  : option value :=
  if disabled then None else Some (coerce allowNegative value_).

(** [handle] of [NumberInput]. *)
Definition NumberInput_handle (disabled : bool) (value_ : string)
  : option value :=
  if disabled then None else Some (coerce true value_).

(** [onChange] of the "# Red Dice (default)" input: the value given to
    [setDefaultRedCount]. *)
Definition defaultRed_onChange (value_ : string) : value :=
  let onlyDigits := strip_non_digits value_ in
  let capped := slice_to 2 onlyDigits in
  let n := parseInt (if is_empty capped then "0" else capped) in
  if Number_isFinite n then n else Num 0.

(** ** Session state and its handlers *)

(** The property names [setField] is called with. *)
Inductive key : Type :=
| K_y | K_purp | K_blue | K_redSum | K_green | K_clear | K_pink.

(** [{ ...r, [key]: val }] *)
Definition set_key (r : row) (k : key) (val : value) : row :=
  match k with
  | K_y => mkRow val (purp r) (blue r) (redSum r) (redCount r) (green r) (clear r) (pink r) (locked r)
  | K_purp => mkRow (y r) val (blue r) (redSum r) (redCount r) (green r) (clear r) (pink r) (locked r)
  | K_blue => mkRow (y r) (purp r) val (redSum r) (redCount r) (green r) (clear r) (pink r) (locked r)
  | K_redSum => mkRow (y r) (purp r) (blue r) val (redCount r) (green r) (clear r) (pink r) (locked r)
  | K_green => mkRow (y r) (purp r) (blue r) (redSum r) (redCount r) val (clear r) (pink r) (locked r)
  | K_clear => mkRow (y r) (purp r) (blue r) (redSum r) (redCount r) (green r) val (pink r) (locked r)
  | K_pink => mkRow (y r) (purp r) (blue r) (redSum r) (redCount r) (green r) (clear r) val (locked r)
  end.

(** [{ ...r, redCount: n, locked: true }] *)
Definition lock_row (r : row) (n : value) : row :=
  mkRow (y r) (purp r) (blue r) (redSum r) n (green r) (clear r) (pink r) true.

(** The state variables of [App] that make up a game. *)
Record session : Type := mkSession {
  rows : list row;
  activeRound : nat;
  defaultRedCount : value;
  playerName : string;
  hasGlitterBlue : bool
}.

Definition with_rows (s : session) (l : list row) : session :=
  mkSession l (activeRound s) (defaultRedCount s) (playerName s) (hasGlitterBlue s).

Definition with_defaultRedCount (s : session) (n : value) : session :=
  mkSession (rows s) (activeRound s) n (playerName s) (hasGlitterBlue s).

(** The initial state of the five [useState] hooks; also what [resetAll]
    installs. *)
Definition fresh : session :=
  mkSession (makeBlankRows ROUNDS) 0 (Num 0) "Player" false.

(** [setField(roundIdx, key, val)].  [None] stands for the [TypeError]
    of reading [.locked] from [rows[roundIdx]] when there is no such
    row. *)
Definition setField (s : session) (roundIdx : nat) (k : key) (val : value)
  : option session :=
  match rows s !! roundIdx with
  | None => None
  | Some r =>
      if locked r then Some s
      else Some (with_rows s (<[roundIdx := set_key r k val]> (rows s)))
  end.

(** [doneRound()].  The assignment to [copy[activeRound]] is modelled
    where [activeRound] is an index of [rows]; past the end JavaScript
    would grow the array and leave holes, which [list row] does not
    represent, and the result is [None]. *)
Definition doneRound (s : session) : option session :=
  match rows s !! activeRound s with
  | None => None
  | Some r =>
      Some (mkSession
              (<[activeRound s := lock_row r (defaultRedCount s)]> (rows s))
              (Nat.min (activeRound s + 1) (ROUNDS - 1))
              (defaultRedCount s) (playerName s) (hasGlitterBlue s))
  end.

(** [resetAll()], given the answer of the [confirm] dialog. *)
Definition resetAll (s : session) (confirmed : bool) : session :=
  if confirmed then mkSession (makeBlankRows ROUNDS) 0 (Num 0) "Player" false
  else s.

(** The updaters of the red dice picker:
    [(n) => Math.max(0, (n || 0) - 1)] and
    [(n) => Math.min(99, (n || 0) + 1)]. *)
Definition picker_minus (n : value) : value :=
  Math_max (Num 0) (js_add (js_or n (Num 0)) (js_neg (Num 1))).

Definition picker_plus (n : value) : value :=
  Math_min (Num 99) (js_add (js_or n (Num 0)) (Num 1)).

(** ** The controls of the sheet

    The handlers above are reached through the controls [App] renders.
    An [event] is one user action on a control; [on_event] runs the
    handler the control is wired to.  It answers [None] when the state
    [s] renders no such control (no row [i] in the table; a button that
    is rendered only under a condition that fails in [s]).  The two
    buttons of the red dice picker exist while the picker is open; its
    open flag is not part of the game, and they are taken to be
    available in every state. *)

Inductive event : Type :=
| CellInput (i : nat) (k : key) (text : string)  (* typing in the input of column [k], row [i] *)
| RedSignClick (i : nat)                         (* the "±" button of row [i] *)
| DoneClick                                      (* the "Done" button *)
| DefaultRedInput (text : string)                (* typing in "# Red Dice (default)" *)
| PickerMinusClick                               (* "−" of the red dice picker *)
| PickerPlusClick                                (* "+" of the red dice picker *)
| GlitterChange (checked : bool)                 (* the glitter-blue checkbox *)
| NameInput (text : string)                      (* typing in "Name:" *)
| ResetClick (confirmed : bool).                 (* "Reset" and the answer to [confirm] *)

(** The [disabled] property [App] passes to the input of column [k] in
    row [i]: [r.locked || !isActive] for yellow,
    [r.locked || !isActive || isRound1] for the other six. *)
Definition cell_disabled (s : session) (i : nat) (r : row) (k : key) : bool :=
  let isActive := Nat.eqb i (activeRound s) in
  let isRound1 := Nat.eqb i 0 in
  match k with
  | K_y => locked r || negb isActive
  | _ => locked r || negb isActive || isRound1
  end.

(** What typing [text] into that input passes to [onChange], if
    anything: the red sum is a [NumberInput], the other columns are
    [CellNumber]s, none of which is given [allowNegative]. *)
Definition cell_handle (k : key) (disabled : bool) (text : string)
  : option value :=
  match k with
  | K_redSum => NumberInput_handle disabled text
  | _ => CellNumber_handle false disabled text
  end.

Definition on_event (s : session) (e : event) : option session :=
  match e with
  | CellInput i k text =>
      match rows s !! i with
      | None => None
      | Some r =>
          match cell_handle k (cell_disabled s i r k) text with
          | None => Some s
          | Some v => setField s i k v
          end
      end
  | RedSignClick i =>
      match rows s !! i with
      | None => None
      | Some r =>
          (* rendered when [!r.locked && isActive && !isRound1] *)
          if negb (locked r) && Nat.eqb i (activeRound s) && negb (Nat.eqb i 0)
          then setField s i K_redSum (js_neg (js_or (to_number (redSum r)) (Num 0)))
          else None
      end
  | DoneClick =>
      match rows s !! activeRound s with
      | None => None
      | Some r =>
          (* rendered in the row with [isActive && !r.locked] *)
          if negb (locked r) then doneRound s else None
      end
  | DefaultRedInput text =>
      Some (with_defaultRedCount s (defaultRed_onChange text))
  | PickerMinusClick =>
      Some (with_defaultRedCount s (picker_minus (defaultRedCount s)))
  | PickerPlusClick =>
      Some (with_defaultRedCount s (picker_plus (defaultRedCount s)))
  | GlitterChange checked =>
      Some (mkSession (rows s) (activeRound s) (defaultRedCount s) (playerName s) checked)
  | NameInput text =>
      Some (mkSession (rows s) (activeRound s) (defaultRedCount s) text (hasGlitterBlue s))
  | ResetClick confirmed => Some (resetAll s confirmed)
  end.

(** Running a sequence of user actions; [None] as soon as one of them
    is not available. *)
Fixpoint run (s : session) (es : list event) : option session :=
  match es with
  | [] => Some s
  | e :: es' =>
      match on_event s e with
      | Some s' => run s' es'
      | None => None
      end
  end.

(** The states a game can be in: those some sequence of user actions
    leads to from the initial state. *)
Definition reachable (s : session) : Prop :=
  exists es : list event, run fresh es = Some s.

Definition is_reset (e : event) : bool :=
  match e with ResetClick _ => true | _ => false end.

(** [n] calls of [doneRound] in a row. *)
Fixpoint doneRound_times (n : nat) (s : session) : option session :=
  match n with
  | O => Some s
  | S m =>
      match doneRound s with
      | Some s' => doneRound_times m s'
      | None => None
      end
  end.

(** The seven dice fields of a round. *)
Definition dice_fields (r : row) : list value :=
  [y r; purp r; blue r; redSum r; green r; clear r; pink r].

(** ** CSV export *)

(** The decimal numeral of an integer. *)
Definition Z_to_string (z : Z) : string := NilZero.string_of_int (Z.to_int z).

(** [Number::toString] prints the shortest decimal that reads back as
    the same double.  Below 2^53 that is the integer itself.  From
    there on a double stands for a range of integers: [candidate z n k]
    looks among the multiples of [10^(n-k)] (numerals of [k] digits
    followed by zeros) for one that rounds to [z], the closest to [z]
    if two do, the one with an even last digit if both are as close;
    [shortest z] is the one of the fewest digits, which needs 17 at
    most. *)
Definition rounds_to (z c : Z) : bool :=
  match round_double c with
  | Num x => x =? z
  | _ => false
  end.

Definition candidate (z n k : Z) : option Z :=
  let p := 10 ^ (n - k) in
  let lo := z / p * p in
  let hi := lo + p in
  match rounds_to z lo, rounds_to z hi with
  | true, true =>
      Some (if z - lo <? hi - z then lo
            else if hi - z <? z - lo then hi
            else if Z.even (z / p) then lo else hi)
  | true, false => Some lo
  | false, true => Some hi
  | false, false => None
  end.

Fixpoint shortest_from (fuel : nat) (z n k : Z) : Z :=
  match fuel with
  | O => z
  | S fuel' =>
      match candidate z n k with
      | Some c => c
      | None => shortest_from fuel' z n (k + 1)
      end
  end.

Definition shortest (z : Z) : Z :=
  shortest_from 17 z (Z.of_nat (String.length (Z_to_string z))) 1.

(** A numeral without its zeros at the end. *)
Fixpoint drop_zeros_end (s : string) : string :=
  match s with
  | EmptyString => EmptyString
  | String c t =>
      match drop_zeros_end t with
      | EmptyString => if Ascii.eqb c "0" then EmptyString else String c EmptyString
      | t' => String c t'
      end
  end.

(** The numeral of 10^21 and more: [d.ddde+n]. *)
Definition exponent_text (c : Z) : string :=
  let d := Z_to_string c in
  match drop_zeros_end d with
  | EmptyString => d
  | String f EmptyString =>
      String f ("e+" ++ Z_to_string (Z.of_nat (String.length d) - 1))
  | String f rest =>
      String f ("." ++ rest ++ "e+" ++ Z_to_string (Z.of_nat (String.length d) - 1))
  end.

(** [String(z)] for the double [z]. *)
Definition number_text (z : Z) : string :=
  if Z.abs z <? max_exact then Z_to_string z
  else
    let c := shortest (Z.abs z) in
    let t := if c <? 10 ^ 21 then Z_to_string c else exponent_text c in
    if z <? 0 then "-" ++ t else t.

(** The text [Array.prototype.join] puts for an element: the numeral of
    a number, and nothing for [undefined]. *)
Definition cell_text (v : value) : string :=
  match v with
  | Num z => number_text z
  | NegZero => "0"
  | NaN => "NaN"
  | Infinity false => "Infinity"
  | Infinity true => "-Infinity"
  | Undefined => ""
  end.

(** [l.join(sep)] *)
Fixpoint join (sep : string) (l : list string) : string :=
  match l with
  | [] => ""
  | [s] => s
  | s :: l' => s ++ sep ++ join sep l'
  end.

Definition comma : ascii := ","%char.
Definition newline : ascii := ascii_of_nat 10.

Definition csv_header (hasGlitterBlue : bool) : list string :=
  ["Round"; "Yellow"; "Purple(x2)";
   "Blue" ++ (if hasGlitterBlue then "(x2 glitter)" else "");
   "Red Sum"; "Red Count"; "Green"; "Clear/White"; "Pink (Pity)"; "Row Total"].

Definition csv_line (hasGlitterBlue : bool) (i : nat) (r : row) : list string :=
  [Z_to_string (Z.of_nat i + 1);
   cell_text (y r);
   cell_text (js_mul (purp r) (Num 2));
   cell_text (if hasGlitterBlue then js_mul (blue r) (Num 2) else blue r);
   cell_text (redSum r);
   cell_text (js_or (redCount r) (Num 0));
   cell_text (green r);
   cell_text (clear r);
   cell_text (pink r);
   cell_text (computeRowTotal r hasGlitterBlue)].

Definition csv_footer (gameTotal : value) : list string :=
  [""; ""; ""; ""; ""; ""; ""; ""; "Total"; cell_text gameTotal].

Definition buildCsvString (playerName : string) (rows : list row)
    (hasGlitterBlue : bool) (gameTotal : value) : string :=
  let header := join "," (csv_header hasGlitterBlue) in
  let lines := imap (fun i r => join "," (csv_line hasGlitterBlue i r)) rows in
  let footer := join "," (csv_footer gameTotal) in
  join (String newline "") (header :: lines ++ [footer])%list.

(** Reading the export back: the pieces of a text between occurrences
    of a separator character. *)
Fixpoint split_on (sep : ascii) (s : string) : list string :=
  match s with
  | EmptyString => [""]
  | String c t =>
      if Ascii.eqb c sep then "" :: split_on sep t
      else match split_on sep t with
           | h :: l => String c h :: l
           | [] => [String c ""]
           end
  end.

Definition csv_rows (csv : string) : list (list string) :=
  map (split_on comma) (split_on newline csv).

(** ** Loading a saved snapshot

    The load effect parses the stored text and copies the properties of
    the result into the state variables.  What [JSON.parse] can return
    is modelled by [json] (numbers on the integers); a state variable
    may receive any such value, so the state after loading is kept
    untyped in [ustate]. *)

#[warnings="-register-all"] Inductive json : Type :=
| JNull
| JBool (b : bool)
| JNum (z : Z)
| JStr (s : string)
| JArr (l : list json)
| JObj (fields : list (string * json)).

(** The outcome of [JSON.parse(localStorage.getItem(LS_KEY) || "null")]:
    an exception, or the parsed value ([JNull] when nothing was stored). *)
Inductive stored : Type :=
| ParseError
| Parsed (saved : json).

Fixpoint assoc (name : string) (fields : list (string * json)) : option json :=
  match fields with
  | [] => None
  | (k, v) :: rest => if String.eqb k name then Some v else assoc name rest
  end.

(** [saved.name], with [None] for [undefined]: an own property of an
    object; the other values have no property of the names read here. *)
Definition get_prop (saved : json) (name : string) : option json :=
  match saved with
  | JObj fields => assoc name fields
  | _ => None
  end.

Definition json_truthy (j : json) : bool :=
  match j with
  | JNull => false
  | JBool b => b
  | JNum z => negb (z =? 0)
  | JStr s => negb (is_empty s)
  | JArr _ | JObj _ => true
  end.

(** [v || d] *)
Definition or_default (v : option json) (d : json) : json :=
  match v with
  | Some j => if json_truthy j then j else d
  | None => d
  end.

(** [v ?? d] *)
Definition nullish_default (v : option json) (d : json) : json :=
  match v with
  | Some JNull | None => d
  | Some j => j
  end.

(** [!!v] *)
Definition to_bool (v : option json) : bool :=
  match v with
  | Some j => json_truthy j
  | None => false
  end.

Record ustate : Type := mkUstate {
  u_rows : json;
  u_activeRound : json;
  u_defaultRedCount : json;
  u_playerName : json;
  u_hasGlitterBlue : bool
}.

Definition blank_row_json : json :=
  JObj [("y", JNum 0); ("purp", JNum 0); ("blue", JNum 0); ("redSum", JNum 0);
        ("redCount", JNum 0); ("green", JNum 0); ("clear", JNum 0);
        ("pink", JNum 0); ("locked", JBool false)].

(** The state variables at the first render. *)
Definition initial_ustate : ustate :=
  mkUstate (JArr (replicate ROUNDS blank_row_json)) (JNum 0) (JNum 0)
           (JStr "Player") false.

(** The body of the load effect, run in the state [init] of the first
    render ([rows] in [saved.rows || rows] is the variable of that
    render). *)
Definition load_effect (init : ustate) (st : stored) : ustate :=
  match st with
  | ParseError => init
  | Parsed saved =>
      if json_truthy saved then
        mkUstate (or_default (get_prop saved "rows") (u_rows init))
                 (or_default (get_prop saved "activeRound") (JNum 0))
                 (nullish_default (get_prop saved "defaultRedCount") (JNum 0))
                 (or_default (get_prop saved "playerName") (JStr "Player"))
                 (to_bool (get_prop saved "hasGlitterBlue"))
      else init
  end.

Definition load (st : stored) : ustate := load_effect initial_ustate st.

(** Reading an untyped state as a [session], where it has the shape of
    one: numbers for the dice fields (an absent one reads [undefined]),
    an index for the active round. *)
Definition value_of_json (v : option json) : option value :=
  match v with
  | None => Some Undefined
  | Some (JNum z) => Some (Num z)
  | Some _ => None
  end.

Definition row_of_json (j : json) : option row :=
  match j with
  | JObj _ =>
      y_ ← value_of_json (get_prop j "y");
      p ← value_of_json (get_prop j "purp");
      b ← value_of_json (get_prop j "blue");
      rs ← value_of_json (get_prop j "redSum");
      rc ← value_of_json (get_prop j "redCount");
      g ← value_of_json (get_prop j "green");
      c ← value_of_json (get_prop j "clear");
      k ← value_of_json (get_prop j "pink");
      Some (mkRow y_ p b rs rc g c k (to_bool (get_prop j "locked")))
  | _ => None
  end.

Definition session_of_ustate (u : ustate) : option session :=
  match u_rows u, u_activeRound u, u_playerName u with
  | JArr l, JNum a, JStr name =>
      if 0 <=? a then
        rs ← mapM row_of_json l;
        d ← value_of_json (Some (u_defaultRedCount u));
        Some (mkSession rs (Z.to_nat a) d name (u_hasGlitterBlue u))
      else None
  | _, _, _ => None
  end.

(** The shape the specification gives the fields of a snapshot. *)
Definition well_formed_activeRound (j : json) : bool :=
  match j with
  | JNum z => (0 <=? z) && (z <=? 9)
  | _ => false
  end.

Definition well_formed_defaultRedCount (j : json) : bool :=
  match j with
  | JNum z => 0 <=? z
  | _ => false
  end.

Definition well_formed_playerName (j : json) : bool :=
  match j with
  | JStr _ => true
  | _ => false
  end.

(** Removing a property from the fields of an object. *)
Fixpoint without (name : string) (fields : list (string * json))
  : list (string * json) :=
  match fields with
  | [] => []
  | (k, v) :: rest =>
      if String.eqb k name then without name rest
      else (k, v) :: without name rest
  end.

(** ** The scoring rule in the words of the specification

    [row_score] is the weighted sum the specification gives for a
    round, over the integers: a field counts for the integer it holds,
    and for 0 when it holds no finite number ([mag]). *)

Definition blue_weight (hasGlitterBlue : bool) : Z :=
  if hasGlitterBlue then 2 else 1.

Definition row_score (r : row) (hasGlitterBlue : bool) : Z :=
  mag (y r) + mag (purp r) * 2 + mag (blue r) * blue_weight hasGlitterBlue
  + mag (redSum r) * mag (redCount r)
  + mag (green r) + mag (clear r) + mag (pink r).

Fixpoint sum_scores (rows : list row) (hasGlitterBlue : bool) : Z :=
  match rows with
  | [] => 0
  | r :: rest => row_score r hasGlitterBlue + sum_scores rest hasGlitterBlue
  end.

Definition with_locked (r : row) (b : bool) : row :=
  mkRow (y r) (purp r) (blue r) (redSum r) (redCount r) (green r) (clear r)
        (pink r) b.

(** ** Predicates of the statements *)

Definition finite (v : value) : Prop := Number_isFinite v = true.

Fixpoint all_digits (s : string) : bool :=
  match s with
  | EmptyString => true
  | String c t => is_digit c && all_digits t
  end.

(** [c] does not occur in [s]. *)
Fixpoint no_char (c : ascii) (s : string) : bool :=
  match s with
  | EmptyString => true
  | String a t => negb (Ascii.eqb a c) && no_char c t
  end.

(** The value a setter of the sheet stores in a dice field: read from
    at most three digits and a sign. *)
Definition dice_ok (v : value) : Prop :=
  finite v /\ -999 <= mag v <= 999.

(** A number of red dice: an integer from 0 to 99. *)
Definition count_ok (v : value) : Prop :=
  exists d : Z, v = Num d /\ 0 <= d <= 99.

Record row_ok (r : row) : Prop := mkRowOk {
  ok_dice : Forall dice_ok (dice_fields r);
  ok_count : count_ok (redCount r);
  ok_unlocked : locked r = false -> redCount r = Num 0
}.

Record session_ok (s : session) : Prop := mkSessionOk {
  ok_length : length (rows s) = ROUNDS;
  ok_active : (activeRound s < ROUNDS)%nat;
  ok_rows : Forall row_ok (rows s);
  ok_default : count_ok (defaultRedCount s)
}.

(** A game whose ten rounds were completed without any input, with the
    default number of red dice then set to [d]. *)
Definition finished_game (d : value) : session :=
  mkSession (replicate ROUNDS (lock_row makeBlankRow (Num 0))) 9 d "Player" false.

(** A game after yellow 5 was entered in round 1 and the round was
    completed. *)
Definition after_round_one : session :=
  mkSession (lock_row (set_key makeBlankRow K_y (Num 5)) (Num 0)
               :: makeBlankRows 9) 1 (Num 0) "Player" false.

(** That game after seven further actions: the default number of red
    dice typed as 7 and raised to 8, blue 3 entered in round 2, and
    rounds 2 and 3 completed. *)
Definition after_round_three : session :=
  mkSession (lock_row (set_key makeBlankRow K_y (Num 5)) (Num 0)
               :: lock_row (set_key (set_key makeBlankRow K_blue (Num 3))
                                    K_redSum NegZero) (Num 8)
               :: lock_row makeBlankRow (Num 8)
               :: makeBlankRows 7) 3 (Num 8) "Player" false.

(** A game in its second round: round 1 completed with yellow 5 and two
    red dice, a red sum of -4 entered in round 2. *)
Definition second_round_open : session :=
  mkSession (lock_row (set_key makeBlankRow K_y (Num 5)) (Num 2)
               :: set_key makeBlankRow K_redSum (Num (-4))
               :: makeBlankRows 8) 1 (Num 2) "Player" false.

(** The game after the first round was completed without any input. *)
Definition first_round_done : session :=
  mkSession (lock_row makeBlankRow (Num 0) :: makeBlankRows 9) 1 (Num 0)
            "Player" false.

(** ** What the sheet shows and saves *)

Definition get_key (r : row) (k : key) : value :=
  match k with
  | K_y => y r
  | K_purp => purp r
  | K_blue => blue r
  | K_redSum => redSum r
  | K_green => green r
  | K_clear => clear r
  | K_pink => pink r
  end.

(** The text an input shows for the number in its [value] property. *)
Definition input_text (v : value) : string := cell_text v.

(** [Red dice: {r.locked ? (r.redCount || 0) : defaultRedCount}] *)
Definition red_dice_shown (s : session) (r : row) : value :=
  if locked r then js_or (redCount r) (Num 0) else defaultRedCount s.

(** The total cell of a row, [r.locked ? rowTotals[i] : null], and the
    "Game Total" row, rendered when [rows.every((r) => r.locked)]. *)
Definition row_total_shown (s : session) (r : row) : option value :=
  if locked r then Some (computeRowTotal r (hasGlitterBlue s)) else None.

Definition game_total_shown (s : session) : option value :=
  if allLocked (rows s) then Some (gameTotal (rows s) (hasGlitterBlue s))
  else None.

(** The text [exportCSV] puts in the downloaded file. *)
Definition exportCSV_text (s : session) : string :=
  buildCsvString (playerName s) (rows s) (hasGlitterBlue s)
                 (gameTotal (rows s) (hasGlitterBlue s)).

(** Reading a cell of the export as a decimal numeral. *)
Definition read_Z (cell : string) : option Z :=
  option_map Z.of_int (NilZero.int_of_string cell).

(** The persist effect stores
    [JSON.stringify({ rows, activeRound, defaultRedCount, playerName, hasGlitterBlue })].
    [snapshot s] is the value [JSON.parse] returns for that text: a
    finite number is written as its numeral ([-0] as [0]), a number that
    is not finite as [null], and a property that is [undefined] is left
    out. *)
Definition json_of_value (v : value) : option json :=
  match v with
  | Num z => Some (JNum z)
  | NegZero => Some (JNum 0)
  | NaN | Infinity _ => Some JNull
  | Undefined => None
  end.

Definition prop (name : string) (v : option json) : list (string * json) :=
  match v with
  | Some j => [(name, j)]
  | None => []
  end.

Definition json_of_row (r : row) : json :=
  JObj (prop "y" (json_of_value (y r))
        ++ prop "purp" (json_of_value (purp r))
        ++ prop "blue" (json_of_value (blue r))
        ++ prop "redSum" (json_of_value (redSum r))
        ++ prop "redCount" (json_of_value (redCount r))
        ++ prop "green" (json_of_value (green r))
        ++ prop "clear" (json_of_value (clear r))
        ++ prop "pink" (json_of_value (pink r))
        ++ [("locked", JBool (locked r))])%list.

Definition snapshot (s : session) : json :=
  JObj ([("rows", JArr (map json_of_row (rows s)));
         ("activeRound", JNum (Z.of_nat (activeRound s)))]
        ++ prop "defaultRedCount" (json_of_value (defaultRedCount s))
        ++ [("playerName", JStr (playerName s));
            ("hasGlitterBlue", JBool (hasGlitterBlue s))])%list.

(** What a saved game comes back as: [-0] as [0], and an empty name as
    the default name. *)
Definition plus_zero (v : value) : value :=
  match v with
  | NegZero => Num 0
  | _ => v
  end.

Definition reloaded_row (r : row) : row :=
  mkRow (plus_zero (y r)) (plus_zero (purp r)) (plus_zero (blue r))
        (plus_zero (redSum r)) (plus_zero (redCount r)) (plus_zero (green r))
        (plus_zero (clear r)) (plus_zero (pink r)) (locked r).

Definition reloaded (s : session) : session :=
  mkSession (map reloaded_row (rows s)) (activeRound s)
            (plus_zero (defaultRedCount s))
            (if is_empty (playerName s) then "Player" else playerName s)
            (hasGlitterBlue s).

(** ** Further predicates of the statements *)

(** The weight of a dice field in the score of its round. *)
Definition weight (r : row) (hasGlitterBlue : bool) (k : key) : Z :=
  match k with
  | K_purp => 2
  | K_blue => blue_weight hasGlitterBlue
  | K_redSum => mag (redCount r)
  | _ => 1
  end.

(** A field that only takes digits: an integer from 0 to 999. *)
Definition digits_ok (v : value) : Prop :=
  exists n : Z, v = Num n /\ 0 <= n <= 999.

(** The rounds of a game are played in order: the rounds before the
    active one are locked, the rounds after it are still blank, the
    active round is locked only when it is the last one; the six fields
    other than the red sum hold digits only; the first round has nothing
    but yellow. *)
Record game_ok (s : session) : Prop := mkGameOk {
  ord_active_le : (activeRound s <= 9)%nat;
  ord_before : forall (i : nat) (r : row),
      rows s !! i = Some r -> (i < activeRound s)%nat -> locked r = true;
  ord_after : forall (i : nat) (r : row),
      rows s !! i = Some r -> (activeRound s < i)%nat -> r = makeBlankRow;
  ord_last : forall r : row,
      rows s !! activeRound s = Some r -> locked r = true ->
      activeRound s = 9%nat;
  ord_digits : forall (i : nat) (r : row) (k : key),
      rows s !! i = Some r -> k <> K_redSum -> digits_ok (get_key r k);
  ord_first : forall (r : row) (k : key),
      rows s !! 0%nat = Some r -> k <> K_y -> get_key r k = Num 0
}.

(** All eight numbers of a round are finite. *)
Definition fields_finite (r : row) : Prop :=
  finite (y r) /\ finite (purp r) /\ finite (blue r) /\ finite (redSum r)
  /\ finite (redCount r) /\ finite (green r) /\ finite (clear r)
  /\ finite (pink r).

(** [s'] is [s] but for its round [i]: same number of rounds, same
    other rounds, same active round, default, name and flag. *)
Definition same_but_row (s s' : session) (i : nat) : Prop :=
  length (rows s') = length (rows s)
  /\ (forall j : nat, j <> i -> rows s' !! j = rows s !! j)
  /\ activeRound s' = activeRound s
  /\ defaultRedCount s' = defaultRedCount s
  /\ playerName s' = playerName s
  /\ hasGlitterBlue s' = hasGlitterBlue s.

(** The first round after 5 is typed into its yellow cell. *)
Definition yellow_five : session :=
  mkSession (mkRow (Num 5) (Num 0) (Num 0) (Num 0) (Num 0) (Num 0) (Num 0)
                   (Num 0) false :: makeBlankRows 9)
            0 (Num 0) "Player" false.

(** How many rounds are locked, and how many times "Done" is pressed in
    a sequence of user actions. *)
Fixpoint locked_count (l : list row) : nat :=
  match l with
  | [] => 0
  | r :: rest => (if locked r then 1 else 0) + locked_count rest
  end.

Definition is_done (e : event) : bool :=
  match e with DoneClick => true | _ => false end.

Fixpoint done_clicks (es : list event) : nat :=
  match es with
  | [] => 0
  | e :: rest => (if is_done e then 1 else 0) + done_clicks rest
  end.

(** The sum of the integers a list of values stands for. *)
Definition sum_mag (l : list value) : Z := fold_right Z.add 0 (map mag l).

(** The numbers from 0 to 999 and their negatives. *)
Definition three_digit_numbers : list Z := map Z.of_nat (seq 0 1000).

Definition retyped_ok (n : Z) : bool :=
  match coerce false (input_text (Num n)), coerce true (input_text (Num n)),
        coerce false (input_text (Num (- n))), coerce true (input_text (Num (- n)))
  with
  | Num a, Num b, Num c, Num d =>
      (a =? n) && (b =? n) && (c =? n) && (d =? - n)
  | _, _, _, _ => false
  end.

(** ** The range in which the sums are exact *)

(** The eight numbers of a round are at most [B] in magnitude (a value
    that is not a finite number counts for 0, as in [computeRowTotal]).
    When [B * B + 8 * B < 2^53] no sum or product of the row total
    reaches 2^53, and the doubles add and multiply exactly. *)
Definition bounded_row (B : Z) (r : row) : Prop :=
  Forall (fun v => Z.abs (mag v) <= B) (redCount r :: dice_fields r).

(** The row with every number put through [clampNum]. *)
Definition clamp_row (r : row) : row :=
  mkRow (clampNum (y r)) (clampNum (purp r)) (clampNum (blue r))
        (clampNum (redSum r)) (clampNum (redCount r)) (clampNum (green r))
        (clampNum (clear r)) (clampNum (pink r)) (locked r).

(** A round with every kind of field: three red dice with a negative
    sum, a field that is absent, one that is NaN and one that is
    infinite. *)
Definition sample_row : row :=
  mkRow (Num 5) (Num 3) Undefined (Num (-7)) (Num 3) NaN (Infinity false)
        NegZero true.

(** A game in its fourth round, with blue dice in two of its rounds. *)
Definition two_blue_rounds : session :=
  mkSession
    ([lock_row makeBlankRow (Num 0);
      lock_row (set_key (set_key makeBlankRow K_y (Num 5)) K_blue (Num 7)) (Num 0);
      lock_row makeBlankRow (Num 0);
      set_key makeBlankRow K_blue (Num 2)] ++ makeBlankRows 6)
    3 (Num 0) "Player" false.

(** * Properties *)

(** ** Arithmetic on finite numbers *)

Lemma finite_cases (v : value) :
  finite v -> v = Num (mag v) \/ (v = NegZero /\ mag v = 0).
Proof.
  destruct v; unfold finite; simpl; intros H; try discriminate; auto.
Qed.

Lemma clampNum_finite (v : value) : finite (clampNum v).
Proof. destruct v; reflexivity. Qed.

Lemma clampNum_mag (v : value) : mag (clampNum v) = mag v.
Proof. destruct v; reflexivity. Qed.

Lemma clampNum_idempotent (v : value) : clampNum (clampNum v) = clampNum v.
Proof. destruct v; reflexivity. Qed.

Lemma not_finite_mag (v : value) :
  Number_isFinite (to_number v) = false -> mag v = 0.
Proof. destruct v; simpl; intros H; try discriminate; reflexivity. Qed.

(** Below 2^53 nothing is rounded. *)
Lemma round_double_exact (z : Z) :
  Z.abs z < 2 ^ 53 -> round_double z = Num z.
Proof.
  intros H. change (2 ^ 53) with max_exact in H.
  unfold round_double. cbv zeta.
  destruct (Z.ltb_spec (Z.abs z) max_exact); [reflexivity | lia].
Qed.

Lemma js_add_finite (a b : value) :
  finite a -> finite b -> Z.abs (mag a + mag b) < 2 ^ 53 ->
  finite (js_add a b) /\ mag (js_add a b) = mag a + mag b.
Proof.
  destruct a as [x | | | |], b as [z | | | |]; unfold finite;
    intros Ha Hb Hs; try discriminate Ha; try discriminate Hb;
    unfold js_add; cbn [to_number mag] in *.
  - rewrite (round_double_exact _ Hs). split; reflexivity.
  - split; [reflexivity | cbn [mag]; lia].
  - split; [reflexivity | cbn [mag]; lia].
  - split; reflexivity.
Qed.

Lemma signed_zero_finite (n : bool) :
  finite (signed_zero n) /\ mag (signed_zero n) = 0.
Proof. destruct n; split; reflexivity. Qed.

Lemma js_mul_finite (a b : value) :
  finite a -> finite b -> Z.abs (mag a * mag b) < 2 ^ 53 ->
  finite (js_mul a b) /\ mag (js_mul a b) = mag a * mag b.
Proof.
  intros Ha Hb Hp.
  assert (Hna : is_nan (to_number a) = false /\ is_inf (to_number a) = false
                /\ mag (to_number a) = mag a)
    by (destruct a; try discriminate Ha; auto).
  assert (Hnb : is_nan (to_number b) = false /\ is_inf (to_number b) = false
                /\ mag (to_number b) = mag b)
    by (destruct b; try discriminate Hb; auto).
  destruct Hna as (Ha1 & Ha2 & Ha3), Hnb as (Hb1 & Hb2 & Hb3).
  unfold js_mul. cbv zeta. rewrite Ha1, Hb1, Ha2, Hb2, Ha3, Hb3.
  cbn [orb].
  destruct (Z.eqb_spec (mag a * mag b) 0) as [E | E].
  - rewrite E. apply signed_zero_finite.
  - rewrite (round_double_exact _ Hp). split; reflexivity.
Qed.

Lemma js_add_Num_l (z : Z) (b : value) :
  finite b -> Z.abs (z + mag b) < 2 ^ 53 ->
  js_add (Num z) b = Num (z + mag b).
Proof.
  destruct b as [x | | | |]; unfold finite; intros H Hs; try discriminate H;
    unfold js_add; cbn [to_number mag] in *.
  - apply round_double_exact, Hs.
  - f_equal. lia.
Qed.

Lemma bounded_row_fields (B : Z) (r : row) :
  bounded_row B r ->
  (- B <= mag (y r) <= B) /\ (- B <= mag (purp r) <= B)
  /\ (- B <= mag (blue r) <= B) /\ (- B <= mag (redSum r) <= B)
  /\ (- B <= mag (redCount r) <= B) /\ (- B <= mag (green r) <= B)
  /\ (- B <= mag (clear r) <= B) /\ (- B <= mag (pink r) <= B).
Proof.
  unfold bounded_row, dice_fields. rewrite !Forall_cons.
  intros (Hrc&Hy&Hp&Hb&Hrs&Hg&Hc&Hk&_).
  apply Z.abs_le in Hrc, Hy, Hp, Hb, Hrs, Hg, Hc, Hk. auto 10.
Qed.

Lemma product_bound (a b B : Z) :
  - B <= a <= B -> - B <= b <= B -> - (B * B) <= a * b <= B * B.
Proof. intros Ha Hb. nia. Qed.

(** The products of a bounded round: none reaches 2^53. *)
Lemma computeRowTotal_steps (r : row) (h : bool) (B : Z) :
  B * B + 8 * B < 2 ^ 53 -> bounded_row B r ->
  let p := js_mul (clampNum (purp r)) (Num 2) in
  let b := js_mul (clampNum (blue r)) (if h then Num 2 else Num 1) in
  let red := js_mul (clampNum (redSum r)) (clampNum (redCount r)) in
  (finite p /\ mag p = mag (purp r) * 2)
  /\ (finite b /\ mag b = mag (blue r) * blue_weight h)
  /\ (finite red /\ mag red = mag (redSum r) * mag (redCount r))
  /\ - (B * B) <= mag (redSum r) * mag (redCount r) <= B * B
  /\ 0 <= B.
Proof.
  intros HB Hr. cbv zeta.
  destruct (bounded_row_fields B r Hr) as (Hy & Hp & Hb & Hrs & Hrc & Hg & Hc & Hk).
  change (2 ^ 53) with 9007199254740992 in HB.
  assert (B0 : 0 <= B) by lia.
  pose proof (product_bound _ _ B Hrs Hrc) as P.
  assert (BB : 0 <= B * B) by nia.
  assert (Fw : finite (if h then Num 2 else Num 1)) by (destruct h; reflexivity).
  assert (Mw : mag (if h then Num 2 else Num 1) = blue_weight h)
    by (destruct h; reflexivity).
  split; [| split; [| split; [| split; [exact P | exact B0]]]].
  - rewrite <- (clampNum_mag (purp r)).
    apply (js_mul_finite _ (Num 2) (clampNum_finite _) eq_refl).
    rewrite clampNum_mag. cbn [mag]. change (2 ^ 53) with 9007199254740992.
    apply Z.abs_lt. lia.
  - rewrite <- (clampNum_mag (blue r)), <- Mw.
    apply (js_mul_finite _ _ (clampNum_finite _) Fw).
    rewrite clampNum_mag, Mw. change (2 ^ 53) with 9007199254740992.
    apply Z.abs_lt. unfold blue_weight. destruct h; lia.
  - rewrite <- (clampNum_mag (redSum r)), <- (clampNum_mag (redCount r)).
    apply (js_mul_finite _ _ (clampNum_finite _) (clampNum_finite _)).
    rewrite !clampNum_mag. change (2 ^ 53) with 9007199254740992.
    apply Z.abs_lt. lia.
Qed.

Lemma computeRowTotal_finite_mag (r : row) (h : bool) (B : Z) :
  B * B + 8 * B < 2 ^ 53 -> bounded_row B r ->
  finite (computeRowTotal r h)
  /\ mag (computeRowTotal r h) = row_score r h
  /\ Z.abs (row_score r h) <= B * B + 8 * B.
Proof.
  intros HB Hr.
  destruct (computeRowTotal_steps r h B HB Hr)
    as ((Fp & Mp) & (Fb & Mb) & (Fred & Mred) & P & B0).
  cbv zeta in Fp, Mp, Fb, Mb, Fred, Mred.
  destruct (bounded_row_fields B r Hr) as (Hy & Hp & Hb & Hrs & Hrc & Hg & Hc & Hk).
  change (2 ^ 53) with 9007199254740992 in HB.
  assert (Hbw : - (2 * B) <= mag (blue r) * blue_weight h <= 2 * B)
    by (unfold blue_weight; destruct h; lia).
  unfold computeRowTotal, row_score. cbv zeta.
  pose proof (clampNum_finite (y r)) as Fy.
  pose proof (clampNum_mag (y r)) as My.
  pose proof (clampNum_finite (green r)) as Fg.
  pose proof (clampNum_mag (green r)) as Mg.
  pose proof (clampNum_finite (clear r)) as Fc.
  pose proof (clampNum_mag (clear r)) as Mc.
  pose proof (clampNum_finite (pink r)) as Fk.
  pose proof (clampNum_mag (pink r)) as Mk.
  set (bw := mag (blue r) * blue_weight h) in *.
  set (pr := mag (redSum r) * mag (redCount r)) in *.
  set (BB := B * B) in *.
  destruct (js_add_finite _ _ Fy Fp) as [F1 M1];
    [change (2 ^ 53) with 9007199254740992; apply Z.abs_lt; lia|].
  destruct (js_add_finite _ _ F1 Fb) as [F2 M2];
    [change (2 ^ 53) with 9007199254740992; apply Z.abs_lt; lia|].
  destruct (js_add_finite _ _ F2 Fred) as [F3 M3];
    [change (2 ^ 53) with 9007199254740992; apply Z.abs_lt; lia|].
  destruct (js_add_finite _ _ F3 Fg) as [F4 M4];
    [change (2 ^ 53) with 9007199254740992; apply Z.abs_lt; lia|].
  destruct (js_add_finite _ _ F4 Fc) as [F5 M5];
    [change (2 ^ 53) with 9007199254740992; apply Z.abs_lt; lia|].
  destruct (js_add_finite _ _ F5 Fk) as [F6 M6];
    [change (2 ^ 53) with 9007199254740992; apply Z.abs_lt; lia|].
  split; [exact F6|]. split; [lia | apply Z.abs_le; lia].
Qed.

Lemma computeRowTotal_clamped (r : row) (h : bool) :
  computeRowTotal (clamp_row r) h = computeRowTotal r h.
Proof.
  unfold computeRowTotal, clamp_row.
  cbn [y purp blue redSum redCount green clear pink].
  rewrite !clampNum_idempotent. reflexivity.
Qed.

Lemma mag_bounded_finite (B : Z) (l : list value) (M : Z) :
  Forall (fun v => finite v /\ Z.abs (mag v) <= M) l ->
  0 <= M ->
  forall a : Z,
    Z.abs a + Z.of_nat (length l) * M < 2 ^ 53 ->
    fold_left js_add l (Num a) = Num (a + fold_right Z.add 0 (map mag l))
    /\ Z.abs (fold_right Z.add 0 (map mag l)) <= Z.of_nat (length l) * M.
Proof.
  intros H HM. induction H as [| v l [Fv Hv] Hl IH]; intros a Ha.
  - cbn. split; [f_equal; lia | lia].
  - cbn [fold_left map fold_right length] in *.
    rewrite Nat2Z.inj_succ in *.
    change (2 ^ 53) with 9007199254740992 in *.
    rewrite (js_add_Num_l a v Fv)
      by (change (2 ^ 53) with 9007199254740992; nia).
    destruct (IH (a + mag v)) as [E Bd];
      [change (2 ^ 53) with 9007199254740992; nia|].
    rewrite E. split; [f_equal; lia | nia].
Qed.

Lemma rowTotals_bounded (l : list row) (h : bool) (B : Z) :
  B * B + 8 * B < 2 ^ 53 -> Forall (bounded_row B) l ->
  Forall (fun v => finite v /\ Z.abs (mag v) <= B * B + 8 * B) (rowTotals l h)
  /\ fold_right Z.add 0 (map mag (rowTotals l h)) = sum_scores l h.
Proof.
  intros HB H. induction H as [| r l Hr Hl [IH1 IH2]].
  - split; [constructor | reflexivity].
  - destruct (computeRowTotal_finite_mag r h B HB Hr) as (F & M & Bd).
    cbn [rowTotals map fold_right sum_scores]. split.
    + constructor; [split; [exact F | rewrite M; exact Bd] | exact IH1].
    + fold (rowTotals l h). rewrite IH2, M. reflexivity.
Qed.

Lemma bounded_rows_bound (l : list row) (B : Z) :
  Forall (bounded_row B) l ->
  Z.of_nat (length l) * (B * B + 8 * B) < 2 ^ 53 ->
  l = [] \/ (0 <= B /\ B * B + 8 * B < 2 ^ 53).
Proof.
  intros H HL. destruct H as [| r l Hr Hl]; [left; reflexivity | right].
  destruct (bounded_row_fields B r Hr) as (Hy & _).
  cbn [length] in HL. rewrite Nat2Z.inj_succ in HL.
  change (2 ^ 53) with 9007199254740992 in *.
  assert (B0 : 0 <= B) by lia.
  assert (X0 : 0 <= B * B + 8 * B) by nia.
  split; [exact B0 | nia].
Qed.

(** The game total of bounded rounds is the integer sum. *)
Lemma gameTotal_Num (l : list row) (h : bool) (B : Z) :
  Forall (bounded_row B) l ->
  Z.of_nat (length l) * (B * B + 8 * B) < 2 ^ 53 ->
  gameTotal l h = Num (sum_scores l h).
Proof.
  intros H HL.
  destruct (bounded_rows_bound l B H HL) as [-> | [B0 HB]]; [reflexivity|].
  destruct (rowTotals_bounded l h B HB H) as [F S].
  unfold gameTotal.
  destruct (mag_bounded_finite B (rowTotals l h) (B * B + 8 * B) F ltac:(nia) 0)
    as [E _].
  - unfold rowTotals. rewrite length_map. cbn [Z.abs]. lia.
  - rewrite E, S. reflexivity.
Qed.

Lemma sum_scores_with_locked (rows : list row) (f : row -> bool) (h : bool) :
  sum_scores (map (fun r => with_locked r (f r)) rows) h = sum_scores rows h.
Proof.
  induction rows as [| r rest IH]; simpl; [reflexivity|].
  rewrite IH. reflexivity.
Qed.

Lemma rowTotals_with_locked (rows : list row) (f : row -> bool) (h : bool) :
  rowTotals (map (fun r => with_locked r (f r)) rows) h = rowTotals rows h.
Proof.
  unfold rowTotals. rewrite map_map. reflexivity.
Qed.

(** Beyond the range the machine rounds, and so does the model: adding
    1 to 2^53 leaves 2^53, and a product past the largest double is
    infinite. *)
Lemma sums_round_beyond_2_53 :
  computeRowTotal (mkRow (Num (2 ^ 53)) (Num 0) (Num 0) (Num 0) (Num 0)
                         (Num 1) (Num 0) (Num 0) false) false
  = Num (2 ^ 53)
  /\ computeRowTotal (mkRow (Num 0) (Num 0) (Num 0) (Num (2 ^ 1000))
                            (Num (2 ^ 100)) (Num 0) (Num 0) (Num 0) false) false
     = Infinity false.
Proof. split; vm_compute; reflexivity. Qed.

(** ** Row score *)

(** C1.  For every round record and either value of the glitter-blue
    flag, [computeRowTotal] reads each of the eight numbers through
    [clampNum], so that a field that is NaN, an infinity or absent
    counts exactly as a field holding 0 and nothing is raised; and for
    every record whose numbers are at most [B] in magnitude, with
    [B * B + 8 * B < 2^53] (the range in which the doubles add and
    multiply exactly: every [B] up to 94906261), it returns a finite
    number, and that number is
    yellow + purple*2 + blue*(2 if the flag is set, else 1)
    + redSum*redCount + green + clear + pink.  (The result is the
    integer itself, except that it is [-0] when all seven terms are
    [-0].) *)
Theorem computeRowTotal_formula (r : row) (hasGlitterBlue : bool) (B : Z) :
  B * B + 8 * B < 2 ^ 53 ->
  Forall (fun v => Z.abs (mag v) <= B)
         [y r; purp r; blue r; redSum r; redCount r; green r; clear r; pink r] ->
  let contribution := mag in
  let total :=
    contribution (y r) + contribution (purp r) * 2
    + contribution (blue r) * (if hasGlitterBlue then 2 else 1)
    + contribution (redSum r) * contribution (redCount r)
    + contribution (green r) + contribution (clear r) + contribution (pink r) in
  (computeRowTotal r hasGlitterBlue = Num total
   \/ (computeRowTotal r hasGlitterBlue = NegZero /\ total = 0))
  /\ (forall z : Z, contribution (Num z) = z)
  /\ (forall v : value,
        Number_isFinite (to_number v) = false -> contribution v = 0)
  /\ (forall r' : row,
        computeRowTotal
          (mkRow (clampNum (y r')) (clampNum (purp r')) (clampNum (blue r'))
                 (clampNum (redSum r')) (clampNum (redCount r'))
                 (clampNum (green r')) (clampNum (clear r'))
                 (clampNum (pink r')) (locked r')) hasGlitterBlue
        = computeRowTotal r' hasGlitterBlue)
  /\ (forall v : value,
        Number_isFinite (to_number v) = false -> clampNum v = Num 0).
Proof.
  intros HB Hr. cbv zeta.
  assert (Hb : bounded_row B r).
  { unfold bounded_row, dice_fields. rewrite !Forall_cons in *.
    destruct Hr as (?&?&?&?&?&?&?&?&_). auto 10 using Forall_nil_2. }
  destruct (computeRowTotal_finite_mag r hasGlitterBlue B HB Hb) as (F & M & _).
  unfold row_score, blue_weight in M. rewrite <- M.
  split; [apply finite_cases; exact F|].
  split; [reflexivity|]. split; [apply not_finite_mag|].
  split; [intros r'; exact (computeRowTotal_clamped r' hasGlitterBlue)|].
  intros v Hv. unfold clampNum. rewrite Hv. reflexivity.
Qed.

Lemma computeRowTotal_formula_witness :
  999 * 999 + 8 * 999 < 2 ^ 53
  /\ computeRowTotal sample_row true = Num (5 + 3 * 2 + 0 * 2 + -7 * 3 + 0 + 0 + 0).
Proof.
  assert (HB : 999 * 999 + 8 * 999 < 2 ^ 53) by (vm_compute; reflexivity).
  split; [exact HB|].
  destruct (computeRowTotal_formula sample_row true 999 HB) as [[E | [E _]] _].
  - repeat constructor; vm_compute; discriminate.
  - exact E.
  - vm_compute in E. discriminate E.
Defined.

(** ** Numeric coercion *)

Lemma strip_all_digits (s : string) : all_digits (strip_non_digits s) = true.
Proof.
  induction s as [| c t IH]; simpl; [reflexivity|].
  destruct (is_digit c) eqn:E; simpl; [rewrite E|]; exact IH.
Qed.

Lemma slice_to_all_digits (n : nat) (s : string) :
  all_digits s = true -> all_digits (slice_to n s) = true.
Proof.
  revert s. induction n as [| n IH]; intros [| c t]; simpl; auto.
  intros H. apply andb_prop in H as [Hc Ht]. rewrite Hc. simpl. auto.
Qed.

Lemma slice_to_length (n : nat) (s : string) :
  (String.length (slice_to n s) <= n)%nat.
Proof.
  revert s. induction n as [| n IH]; intros [| c t]; simpl; try lia.
  specialize (IH t). lia.
Qed.

Lemma is_digit_not_sign (c : ascii) :
  is_digit c = true ->
  Ascii.eqb c "-" = false /\ Ascii.eqb c "+" = false.
Proof.
  destruct c as [[|] [|] [|] [|] [|] [|] [|] [|]];
    intros H; try discriminate H; split; reflexivity.
Qed.

Lemma digit_val_range (c : ascii) :
  is_digit c = true -> 0 <= digit_val c <= 9.
Proof.
  unfold is_digit, digit_val. cbv zeta. intros H.
  apply andb_prop in H as [H1 H2].
  apply Nat.leb_le in H1. apply Nat.leb_le in H2. lia.
Qed.

Lemma digit_prefix_all_digits (s : string) :
  all_digits s = true -> digit_prefix s = s.
Proof.
  induction s as [| c t IH]; simpl; [reflexivity|].
  intros H. apply andb_prop in H as [Hc Ht]. rewrite Hc, IH; auto.
Qed.

(** A run of [n] digits read after [acc] denotes a number between
    [acc * 10^n] and [acc * 10^n + 10^n - 1]. *)
Lemma digits_value_bounds (s : string) (acc : Z) :
  all_digits s = true -> 0 <= acc ->
  let p := 10 ^ Z.of_nat (String.length s) in
  acc * p <= digits_value acc s <= acc * p + p - 1.
Proof.
  revert acc. induction s as [| c t IH]; intros acc H Hacc; cbv zeta.
  - simpl. lia.
  - simpl in H. apply andb_prop in H as [Hc Ht].
    pose proof (digit_val_range c Hc) as Hd.
    assert (H0 : 0 <= 10 * acc + digit_val c) by lia.
    specialize (IH (10 * acc + digit_val c) Ht H0). cbv zeta in IH.
    change (String.length (String c t)) with (S (String.length t)).
    rewrite Nat2Z.inj_succ, Z.pow_succ_r by lia.
    simpl digits_value.
    assert (Hp : 0 < 10 ^ Z.of_nat (String.length t))
      by (apply Z.pow_pos_nonneg; lia).
    nia.
Qed.

Lemma digits_value_capped (n : nat) (s : string) :
  all_digits s = true -> (String.length s <= n)%nat ->
  0 <= digits_value 0 s <= 10 ^ Z.of_nat n - 1.
Proof.
  intros H Hn.
  pose proof (digits_value_bounds s 0 H (Z.le_refl 0)) as B. cbv zeta in B.
  assert (10 ^ Z.of_nat (String.length s) <= 10 ^ Z.of_nat n)
    by (apply Z.pow_le_mono_r; lia).
  lia.
Qed.

Lemma parseInt_digits (ds : string) :
  all_digits ds = true -> is_empty ds = false ->
  parseInt ds = Num (digits_value 0 ds).
Proof.
  intros H Hne. destruct ds as [| c t]; [discriminate Hne|].
  pose proof H as H'. simpl in H'. apply andb_prop in H' as [Hc _].
  destruct (is_digit_not_sign c Hc) as [Hm Hp].
  unfold parseInt. cbv zeta. simpl startsWith_minus. rewrite Hm, Hp. simpl orb.
  cbv iota. rewrite (digit_prefix_all_digits _ H). simpl is_empty. cbv iota.
  destruct (Z.eqb_spec (digits_value 0 (String c t)) 0) as [E | E].
  - rewrite E. reflexivity.
  - reflexivity.
Qed.

Lemma parseInt_minus_digits (ds : string) :
  all_digits ds = true -> is_empty ds = false ->
  parseInt ("-" ++ ds) =
  if digits_value 0 ds =? 0 then NegZero else Num (- digits_value 0 ds).
Proof.
  intros H Hne. unfold parseInt. cbv zeta. simpl.
  rewrite (digit_prefix_all_digits _ H), Hne.
  destruct (digits_value 0 ds =? 0); reflexivity.
Qed.

(** What [coerce] computes, without [parseInt]: the sign is kept when it
    is looked for and leads the text, the digits are the first three of
    the text, and a negated zero is [-0]. *)
Lemma coerce_value (allowNegative : bool) (text : string) :
  let signed := allowNegative && startsWith_minus text in
  let digits :=
    slice_to 3 (strip_non_digits (if signed then slice_from_1 text else text)) in
  let n := digits_value 0 digits in
  0 <= n <= 999
  /\ coerce allowNegative text =
     if signed then (if n =? 0 then NegZero else Num (- n)) else Num n.
Proof.
  cbv zeta.
  set (signed := allowNegative && startsWith_minus text).
  set (digits := slice_to 3 (strip_non_digits
                               (if signed then slice_from_1 text else text))).
  assert (Hd : all_digits digits = true)
    by (apply slice_to_all_digits, strip_all_digits).
  assert (Hl : (String.length digits <= 3)%nat) by apply slice_to_length.
  pose proof (digits_value_capped 3 digits Hd Hl) as Hr.
  change (10 ^ Z.of_nat 3 - 1) with 999 in Hr.
  split; [exact Hr|].
  unfold coerce. cbv zeta. fold signed. fold digits.
  destruct (is_empty digits) eqn:He.
  - assert (digits = "") as -> by (destruct digits; [reflexivity | discriminate He]).
    destruct signed; reflexivity.
  - destruct signed; simpl andb; cbv iota.
    + rewrite (parseInt_minus_digits _ Hd He).
      destruct (digits_value 0 digits =? 0); reflexivity.
    + change ("" ++ digits) with digits.
      rewrite (parseInt_digits _ Hd He). reflexivity.
Qed.

Lemma coerce_dice_ok (allowNegative : bool) (text : string) :
  dice_ok (coerce allowNegative text).
Proof.
  pose proof (coerce_value allowNegative text) as H. cbv zeta in H.
  destruct (allowNegative && startsWith_minus text); destruct H as [Hr ->].
  - destruct (Z.eqb_spec (digits_value 0
        (slice_to 3 (strip_non_digits (slice_from_1 text)))) 0);
      split; try reflexivity; unfold mag; lia.
  - split; [reflexivity | unfold mag; lia].
Qed.

Lemma defaultRed_onChange_count_ok (text : string) :
  count_ok (defaultRed_onChange text).
Proof.
  unfold defaultRed_onChange. cbv zeta.
  set (capped := slice_to 2 (strip_non_digits text)).
  assert (Hd : all_digits capped = true)
    by (apply slice_to_all_digits, strip_all_digits).
  assert (Hl : (String.length capped <= 2)%nat) by apply slice_to_length.
  pose proof (digits_value_capped 2 capped Hd Hl) as Hr.
  change (10 ^ Z.of_nat 2 - 1) with 99 in Hr.
  destruct (is_empty capped) eqn:He.
  - exists 0. split; [reflexivity | lia].
  - rewrite (parseInt_digits _ Hd He). simpl.
    exists (digits_value 0 capped). split; [reflexivity | exact Hr].
Qed.

(** ** Handlers *)

Lemma setField_at (s : session) (i : nat) (k : key) (v : value) (r : row) :
  rows s !! i = Some r ->
  setField s i k v =
  Some (if locked r then s
        else with_rows s (<[i := set_key r k v]> (rows s))).
Proof.
  intros Hr. unfold setField. rewrite Hr. destruct (locked r); reflexivity.
Qed.

(** Typing into a cell: nothing happens when the cell is disabled,
    otherwise the coerced text replaces the field. *)
Lemma CellInput_at (s : session) (i : nat) (k : key) (text : string) (r : row) :
  rows s !! i = Some r ->
  on_event s (CellInput i k text) =
  Some (if cell_disabled s i r k then s
        else with_rows s
               (<[i := set_key r k
                         (coerce (match k with K_redSum => true | _ => false end)
                                 text)]> (rows s))).
Proof.
  intros Hr. unfold on_event. rewrite Hr.
  destruct (cell_disabled s i r k) eqn:D.
  - destruct k; reflexivity.
  - assert (L : locked r = false).
    { unfold cell_disabled in D. cbv zeta in D.
      destruct (locked r); [destruct k; discriminate D | reflexivity]. }
    destruct k; cbn [cell_handle CellNumber_handle NumberInput_handle];
      rewrite (setField_at _ _ _ _ _ Hr);
      (destruct (locked r); [discriminate L | reflexivity]).
Qed.

Lemma cell_disabled_gate (s : session) (i : nat) (r : row) (k : key) :
  cell_disabled s i r k = true <->
  (locked r = true \/ i <> activeRound s \/ (i = 0%nat /\ k <> K_y)).
Proof.
  unfold cell_disabled. cbv zeta.
  destruct (Nat.eqb_spec i (activeRound s)) as [Ea | Ea];
    destruct (Nat.eqb_spec i 0) as [E0 | E0];
    destruct (locked r); destruct k; simpl; split; intros H; auto;
    try discriminate H;
    try (right; right; split; [assumption | discriminate]);
    try (destruct H as [H | [H | [H1 H2]]];
         first [discriminate H | contradiction | congruence]).
Qed.

(** A user action other than a confirmed reset leaves every locked
    round as it is. *)
Lemma on_event_keeps_locked (s s' : session) (e : event) (i : nat) (r : row) :
  on_event s e = Some s' -> is_reset e = false ->
  rows s !! i = Some r -> locked r = true ->
  rows s' !! i = Some r.
Proof.
  intros He Hn Hr Hl.
  destruct e as [j k text | j | | text | | | c | text | c];
    try discriminate Hn; simpl in He.
  - destruct (rows s !! j) as [rj |] eqn:Hj; [| discriminate He].
    assert (He' : on_event s (CellInput j k text) = Some s')
      by (simpl; rewrite Hj; exact He).
    rewrite (CellInput_at _ _ _ _ _ Hj) in He'. injection He' as <-.
    destruct (cell_disabled s j rj k) eqn:D; [exact Hr|].
    simpl. destruct (decide (i = j)) as [-> | Hne].
    + rewrite Hr in Hj. injection Hj as <-.
      unfold cell_disabled in D. cbv zeta in D. rewrite Hl in D.
      destruct k; discriminate D.
    + rewrite list_lookup_insert_ne by auto. exact Hr.
  - destruct (rows s !! j) as [rj |] eqn:Hj; [| discriminate He].
    destruct (locked rj) eqn:Lj; [discriminate He|]. simpl in He.
    destruct (Nat.eqb j (activeRound s) && negb (Nat.eqb j 0));
      [| discriminate He].
    rewrite (setField_at _ _ _ _ _ Hj), Lj in He. injection He as <-.
    simpl. destruct (decide (i = j)) as [-> | Hne].
    + rewrite Hr in Hj. injection Hj as <-. congruence.
    + rewrite list_lookup_insert_ne by auto. exact Hr.
  - destruct (rows s !! activeRound s) as [ra |] eqn:Ha; [| discriminate He].
    destruct (locked ra) eqn:La; [discriminate He|]. simpl in He.
    unfold doneRound in He. rewrite Ha in He. injection He as <-.
    simpl. destruct (decide (i = activeRound s)) as [-> | Hne].
    + rewrite Hr in Ha. injection Ha as <-. congruence.
    + rewrite list_lookup_insert_ne by auto. exact Hr.
  - injection He as <-. exact Hr.
  - injection He as <-. exact Hr.
  - injection He as <-. exact Hr.
  - injection He as <-. exact Hr.
  - injection He as <-. exact Hr.
Qed.

Lemma run_keeps_locked (es : list event) (s s' : session) (i : nat) (r : row) :
  run s es = Some s' ->
  Forall (fun e => is_reset e = false) es ->
  rows s !! i = Some r -> locked r = true ->
  rows s' !! i = Some r.
Proof.
  intros Hrun Hes. revert s Hrun.
  induction Hes as [| e es He Hes IH]; intros s Hrun Hr Hl; simpl in Hrun.
  - injection Hrun as <-. exact Hr.
  - destruct (on_event s e) as [s1 |] eqn:E; [| discriminate Hrun].
    apply (IH s1 Hrun); [| exact Hl].
    exact (on_event_keeps_locked _ _ _ _ _ E He Hr Hl).
Qed.

(** ** The states of a game are well formed *)

Lemma dice_fields_ok (r : row) :
  Forall dice_ok (dice_fields r) <->
  dice_ok (y r) /\ dice_ok (purp r) /\ dice_ok (blue r) /\ dice_ok (redSum r)
  /\ dice_ok (green r) /\ dice_ok (clear r) /\ dice_ok (pink r).
Proof.
  unfold dice_fields. rewrite !Forall_cons. split.
  - intros (?&?&?&?&?&?&?&_). auto 10.
  - intros (?&?&?&?&?&?&?). auto 10 using Forall_nil_2.
Qed.

Lemma row_ok_set_key (r : row) (k : key) (v : value) :
  row_ok r -> dice_ok v -> row_ok (set_key r k v).
Proof.
  intros [Hd Hc Hu] Hv. apply dice_fields_ok in Hd.
  destruct Hd as (?&?&?&?&?&?&?).
  constructor; [apply dice_fields_ok | |]; destruct k; simpl; auto 10.
Qed.

Lemma row_ok_lock_row (r : row) (n : value) :
  row_ok r -> count_ok n -> row_ok (lock_row r n).
Proof.
  intros [Hd Hc Hu] Hn. apply dice_fields_ok in Hd.
  constructor; [apply dice_fields_ok; exact Hd | exact Hn |].
  simpl. discriminate.
Qed.

Lemma row_ok_blank : row_ok makeBlankRow.
Proof.
  constructor.
  - apply dice_fields_ok. simpl.
    assert (dice_ok (Num 0)) by (split; [reflexivity | simpl; lia]). auto 10.
  - exists 0. split; [reflexivity | lia].
  - reflexivity.
Qed.

Lemma session_ok_fresh : session_ok fresh.
Proof.
  constructor.
  - reflexivity.
  - simpl. unfold ROUNDS. lia.
  - simpl. unfold makeBlankRows. apply Forall_replicate, row_ok_blank.
  - exists 0. split; [reflexivity | lia].
Qed.

Lemma sign_toggle_dice_ok (v : value) :
  dice_ok v -> dice_ok (js_neg (js_or (to_number v) (Num 0))).
Proof.
  intros [Hf Hm]. destruct v as [z | | | |]; try discriminate Hf.
  - unfold js_or. simpl. destruct (Z.eqb_spec z 0) as [-> | Hz]; simpl.
    + split; [reflexivity | simpl; lia].
    + unfold js_neg. simpl. destruct (Z.eqb_spec z 0); [contradiction|].
      split; [reflexivity | simpl in *; lia].
  - split; [reflexivity | simpl; lia].
Qed.

Lemma picker_values (d : Z) :
  0 <= d <= 99 ->
  picker_plus (Num d) = Num (Z.min 99 (d + 1))
  /\ picker_minus (Num d) = Num (Z.max 0 (d - 1)).
Proof.
  intros Hd.
  assert (E : (if negb (d =? 0) then Num d else Num 0) = Num d)
    by (destruct (Z.eqb_spec d 0) as [-> | Hz]; reflexivity).
  assert (A1 : js_add (Num d) (Num 1) = Num (d + 1)).
  { apply (js_add_Num_l d (Num 1) eq_refl). cbn [mag].
    change (2 ^ 53) with 9007199254740992. lia. }
  assert (A2 : js_add (Num d) (js_neg (Num 1)) = Num (d + -1)).
  { change (js_neg (Num 1)) with (Num (-1)).
    apply (js_add_Num_l d (Num (-1)) eq_refl). cbn [mag].
    change (2 ^ 53) with 9007199254740992. lia. }
  unfold picker_plus, picker_minus, js_or. cbn [truthy].
  rewrite E, A1, A2. unfold Math_min, Math_max.
  cbn [to_number is_nan orb mag is_neg].
  split;
    repeat match goal with
           | |- context [?a <? ?b] => destruct (Z.ltb_spec a b)
           end; f_equal; lia.
Qed.

Lemma picker_minus_count_ok (n : value) :
  count_ok n -> count_ok (picker_minus n).
Proof.
  intros (d & -> & Hd). rewrite (proj2 (picker_values d Hd)).
  eexists. split; [reflexivity | lia].
Qed.

Lemma picker_plus_count_ok (n : value) :
  count_ok n -> count_ok (picker_plus n).
Proof.
  intros (d & -> & Hd). rewrite (proj1 (picker_values d Hd)).
  eexists. split; [reflexivity | lia].
Qed.

Lemma session_ok_with_rows (s : session) (i : nat) (r : row) :
  session_ok s -> row_ok r -> session_ok (with_rows s (<[i := r]> (rows s))).
Proof.
  intros [Hlen Hact Hrows Hdef] Hr. constructor; simpl; auto.
  - rewrite length_insert. exact Hlen.
  - apply Forall_insert; assumption.
Qed.

Lemma session_ok_with_default (s : session) (n : value) :
  session_ok s -> count_ok n -> session_ok (with_defaultRedCount s n).
Proof. intros [Hlen Hact Hrows Hdef] Hn. constructor; simpl; auto. Qed.

Lemma on_event_ok (s s' : session) (e : event) :
  session_ok s -> on_event s e = Some s' -> session_ok s'.
Proof.
  intros Hs He.
  destruct e as [j k text | j | | text | | | c | text | c]; simpl in He.
  - destruct (rows s !! j) as [rj |] eqn:Hj; [| discriminate He].
    assert (He' : on_event s (CellInput j k text) = Some s')
      by (simpl; rewrite Hj; exact He).
    rewrite (CellInput_at _ _ _ _ _ Hj) in He'. injection He' as <-.
    destruct (cell_disabled s j rj k); [exact Hs|].
    apply session_ok_with_rows; [exact Hs|].
    apply row_ok_set_key; [| apply coerce_dice_ok].
    exact (Forall_lookup_1 _ _ _ _ (ok_rows s Hs) Hj).
  - destruct (rows s !! j) as [rj |] eqn:Hj; [| discriminate He].
    destruct (negb (locked rj) && Nat.eqb j (activeRound s) && negb (Nat.eqb j 0));
      [| discriminate He].
    rewrite (setField_at _ _ _ _ _ Hj) in He. apply (inj Some) in He as <-.
    destruct (locked rj); [exact Hs|].
    pose proof (Forall_lookup_1 _ _ _ _ (ok_rows s Hs) Hj) as Hrj.
    apply session_ok_with_rows; [exact Hs|].
    apply row_ok_set_key; [exact Hrj|].
    apply sign_toggle_dice_ok.
    apply (dice_fields_ok rj), (ok_dice rj Hrj).
  - destruct (rows s !! activeRound s) as [ra |] eqn:Ha; [| discriminate He].
    destruct (negb (locked ra)); [| discriminate He].
    unfold doneRound in He. rewrite Ha in He. injection He as <-.
    pose proof (Forall_lookup_1 _ _ _ _ (ok_rows s Hs) Ha) as Hra.
    destruct Hs as [Hlen Hact Hrows Hdef]. constructor; simpl.
    + rewrite length_insert. exact Hlen.
    + unfold ROUNDS. lia.
    + apply Forall_insert; [exact Hrows|].
      apply row_ok_lock_row; assumption.
    + exact Hdef.
  - injection He as <-. apply session_ok_with_default; [exact Hs|].
    apply defaultRed_onChange_count_ok.
  - injection He as <-. apply session_ok_with_default; [exact Hs|].
    apply picker_minus_count_ok, (ok_default s Hs).
  - injection He as <-. apply session_ok_with_default; [exact Hs|].
    apply picker_plus_count_ok, (ok_default s Hs).
  - injection He as <-. destruct Hs. constructor; assumption.
  - injection He as <-. destruct Hs. constructor; assumption.
  - injection He as <-. unfold resetAll. destruct c; [| exact Hs].
    exact session_ok_fresh.
Qed.

Lemma run_ok (es : list event) (s s' : session) :
  session_ok s -> run s es = Some s' -> session_ok s'.
Proof.
  revert s. induction es as [| e es IH]; intros s Hs Hrun; simpl in Hrun.
  - injection Hrun as <-. exact Hs.
  - destruct (on_event s e) as [s1 |] eqn:E; [| discriminate Hrun].
    exact (IH s1 (on_event_ok _ _ _ Hs E) Hrun).
Qed.

Lemma reachable_ok (s : session) : reachable s -> session_ok s.
Proof. intros [es Hes]. exact (run_ok es fresh s session_ok_fresh Hes). Qed.

(** The numbers of a game are far inside the range of exact sums. *)
Lemma bound_999 : 999 * 999 + 8 * 999 < 2 ^ 53.
Proof. vm_compute. reflexivity. Qed.

Lemma row_ok_bounded (r : row) : row_ok r -> bounded_row 999 r.
Proof.
  intros [Hd (c & Ec & Hc) _]. unfold bounded_row. constructor.
  - rewrite Ec. cbn [mag]. apply Z.abs_le. lia.
  - eapply Forall_impl; [exact Hd|]. intros v [_ Hv]. apply Z.abs_le. lia.
Qed.

Lemma session_ok_bounded (s : session) :
  session_ok s ->
  Forall (bounded_row 999) (rows s)
  /\ Z.of_nat (length (rows s)) * (999 * 999 + 8 * 999) < 2 ^ 53.
Proof.
  intros [Hlen _ Hrows _]. split.
  - eapply Forall_impl; [exact Hrows|]. exact row_ok_bounded.
  - rewrite Hlen. vm_compute. reflexivity.
Qed.

(** ** Editing a field *)

Lemma RedSignClick_hidden (s : session) (i : nat) (r : row) :
  rows s !! i = Some r ->
  (locked r = true \/ i <> activeRound s \/ i = 0%nat) ->
  on_event s (RedSignClick i) = None.
Proof.
  intros Hr H. simpl. rewrite Hr.
  destruct (locked r) eqn:L; [reflexivity|].
  destruct (Nat.eqb_spec i (activeRound s)) as [Ea | Ea]; [| reflexivity].
  destruct (Nat.eqb_spec i 0) as [E0 | E0]; [reflexivity|].
  destruct H as [H | [H | H]]; [discriminate H | contradiction | contradiction].
Qed.

Lemma yellow_of_round_one (s : session) (text : string) (r : row) :
  rows s !! 0%nat = Some r -> activeRound s = 0%nat -> locked r = false ->
  let n := digits_value 0 (slice_to 3 (strip_non_digits text)) in
  0 <= n <= 999
  /\ on_event s (CellInput 0 K_y text) =
     Some (with_rows s (<[0%nat := set_key r K_y (Num n)]> (rows s))).
Proof.
  intros Hr Ha Hl n.
  destruct (coerce_value false text) as [Hn Hc]. cbv zeta in Hn, Hc.
  simpl in Hn, Hc. split; [exact Hn|].
  rewrite (CellInput_at _ _ _ _ _ Hr).
  assert (G : cell_disabled s 0 r K_y = false)
    by (unfold cell_disabled; cbv zeta; rewrite Ha, Hl; reflexivity).
  rewrite G, Hc. reflexivity.
Qed.

Lemma get_set_key (r : row) (k : key) (v : value) :
  get_key (set_key r k v) k = v
  /\ (forall k' : key, k' <> k -> get_key (set_key r k v) k' = get_key r k')
  /\ redCount (set_key r k v) = redCount r
  /\ locked (set_key r k v) = locked r.
Proof.
  split; [destruct k; reflexivity|].
  split; [| split; destruct k; reflexivity].
  intros k' Hk. destruct k, k'; first [reflexivity | contradiction].
Qed.

Lemma with_rows_same_but_row (s : session) (i : nat) (r' : row) :
  same_but_row s (with_rows s (<[i := r']> (rows s))) i.
Proof.
  unfold same_but_row, with_rows.
  cbn [rows activeRound defaultRedCount playerName hasGlitterBlue].
  split; [apply length_insert|].
  split; [intros j Hj; apply list_lookup_insert_ne; congruence|].
  repeat split.
Qed.

(** C2.  Typing into the cell of column [k] of round [i] leaves the
    session as it is whenever that round is locked, or is not the
    active round, or is round index 0 and the column is not yellow.  In
    particular the six other columns of round index 0 can never be
    edited, whatever the active round and the lock state (and round
    index 0 is never offered the "±" button).  Otherwise the edit is
    applied: column [k] of round [i] holds the number read from the
    text (at most three digits, negated in the red-sum column when the
    text starts with a minus sign), and the other columns, the red
    count and the lock of the round, the other rounds and the rest of
    the session are as before.  Typing into yellow of round index 0
    while it is active and unlocked stores the number read from the
    text in [y] and leaves the eight other properties of the round
    alone.  ([setField] itself tests the lock; the two other tests are
    in the [disabled] flag of the cell, which the handler of the cell
    consults before it calls [setField].) *)
Theorem field_edit_gate (s : session) (i : nat) (k : key) (text : string) (r : row) :
  rows s !! i = Some r ->
  ((locked r = true \/ i <> activeRound s \/ (i = 0%nat /\ k <> K_y)) ->
     on_event s (CellInput i k text) = Some s)
  /\ (i = 0%nat -> k <> K_y ->
        on_event s (CellInput i k text) = Some s
        /\ on_event s (RedSignClick i) = None)
  /\ (i = 0%nat -> activeRound s = 0%nat -> locked r = false ->
        let n := digits_value 0 (slice_to 3 (strip_non_digits text)) in
        0 <= n <= 999
        /\ on_event s (CellInput i K_y text) =
           Some (with_rows s (<[i := set_key r K_y (Num n)]> (rows s)))
        /\ exists (s' : session) (r' : row),
             on_event s (CellInput i K_y text) = Some s'
             /\ rows s' !! i = Some r'
             /\ y r' = Num n
             /\ purp r' = purp r /\ blue r' = blue r /\ redSum r' = redSum r
             /\ redCount r' = redCount r /\ green r' = green r
             /\ clear r' = clear r /\ pink r' = pink r /\ locked r' = false
             /\ same_but_row s s' i)
  /\ (~ (locked r = true \/ i <> activeRound s \/ (i = 0%nat /\ k <> K_y)) ->
        exists v : value,
          cell_handle k false text = Some v
          /\ on_event s (CellInput i k text) =
             Some (with_rows s (<[i := set_key r k v]> (rows s)))
          /\ (let signed :=
                match k with K_redSum => startsWith_minus text | _ => false end in
              let n :=
                digits_value 0
                  (slice_to 3 (strip_non_digits
                                 (if signed then slice_from_1 text else text))) in
              0 <= n <= 999
              /\ v = if signed then (if n =? 0 then NegZero else Num (- n))
                     else Num n)
          /\ exists (s' : session) (r' : row),
               on_event s (CellInput i k text) = Some s'
               /\ rows s' !! i = Some r'
               /\ get_key r' k = v
               /\ (forall k' : key, k' <> k -> get_key r' k' = get_key r k')
               /\ redCount r' = redCount r /\ locked r' = locked r
               /\ same_but_row s s' i)
  /\ (locked r = true -> forall v : value, setField s i k v = Some s).
Proof.
  intros Hr.
  pose proof (lookup_lt_Some _ _ _ Hr) as Hlt.
  assert (Gate : (locked r = true \/ i <> activeRound s \/ (i = 0%nat /\ k <> K_y)) ->
                 on_event s (CellInput i k text) = Some s).
  { intros H. rewrite (CellInput_at _ _ _ _ _ Hr).
    apply cell_disabled_gate in H. rewrite H. reflexivity. }
  split; [exact Gate|]. split; [| split; [| split]].
  - intros E0 Hk. split; [apply Gate; auto|].
    apply (RedSignClick_hidden _ _ _ Hr). auto.
  - intros E0 Ha Hl. subst i.
    destruct (yellow_of_round_one s text r Hr Ha Hl) as [Hn He].
    cbv zeta in Hn, He. cbv zeta.
    split; [exact Hn|]. split; [exact He|].
    eexists. eexists. split; [exact He|].
    split; [cbn [rows with_rows]; apply list_lookup_insert_eq, Hlt|].
    cbn [set_key y purp blue redSum redCount green clear pink locked].
    repeat (split; [first [reflexivity | exact Hl]|]).
    apply with_rows_same_but_row.
  - intros Hn. pose proof (CellInput_at s i k text r Hr) as He.
    destruct (cell_disabled s i r k) eqn:G.
    + exfalso. apply Hn, cell_disabled_gate, G.
    + exists (coerce (match k with K_redSum => true | _ => false end) text).
      split; [destruct k; reflexivity|].
      split; [exact He|]. split.
      * destruct k;
          first [exact (coerce_value false text) | exact (coerce_value true text)].
      * eexists. eexists. split; [exact He|].
        split; [cbn [rows with_rows]; apply list_lookup_insert_eq, Hlt|].
        destruct (get_set_key r k
                    (coerce (match k with K_redSum => true | _ => false end) text))
          as (G1 & G2 & G3 & G4).
        split; [exact G1|]. split; [exact G2|].
        split; [exact G3|]. split; [exact G4|].
        apply with_rows_same_but_row.
  - intros Hl v. rewrite (setField_at _ _ _ _ _ Hr), Hl. reflexivity.
Qed.

(** Typing "5" into yellow of the first round of a new game stores 5
    there; typing into purple of the second round does nothing. *)
Lemma field_edit_gate_witness :
  rows fresh !! 0%nat = Some makeBlankRow
  /\ on_event fresh (CellInput 0 K_y "5") = Some yellow_five
  /\ (exists r' : row, rows yellow_five !! 0%nat = Some r' /\ y r' = Num 5)
  /\ on_event fresh (CellInput 1 K_purp "7") = Some fresh.
Proof.
  split; [reflexivity|].
  destruct (field_edit_gate fresh 0 K_y "5" makeBlankRow eq_refl)
    as (_ & _ & Open & _).
  destruct (Open eq_refl eq_refl eq_refl) as (_ & He & s' & r' & He' & Hr' & Hy & _).
  assert (Es : s' = yellow_five).
  { apply (inj Some). rewrite <- He'. vm_compute. reflexivity. }
  subst s'.
  split; [exact He'|].
  split; [exists r'; split; [exact Hr' | exact Hy]|].
  apply (proj1 (field_edit_gate fresh 1 K_purp "7" makeBlankRow eq_refl)).
  right. left. cbn. lia.
Defined.

(** ** Locking *)

Lemma doneRound_at (s : session) (r : row) :
  rows s !! activeRound s = Some r ->
  doneRound s =
  Some (mkSession (<[activeRound s := lock_row r (defaultRedCount s)]> (rows s))
                  (Nat.min (activeRound s + 1) 9)
                  (defaultRedCount s) (playerName s) (hasGlitterBlue s)).
Proof. intros Hr. unfold doneRound. rewrite Hr. reflexivity. Qed.

(** C3.  Once a round is locked, no user action other than a confirmed
    reset changes it: after any sequence of field edits, sign toggles,
    round completions and changes of the default number of red dice
    (and of the name and the glitter flag), the round still has the
    same seven dice fields, the same [redCount] and [locked = true].
    This holds from every state, so in particular from the states a
    game reaches; a confirmed reset replaces all rounds by blank ones. *)
Theorem locked_round_is_immutable
    (s s' : session) (es : list event) (i : nat) (r : row) :
  run s es = Some s' ->
  Forall (fun e => is_reset e = false) es ->
  rows s !! i = Some r -> locked r = true ->
  rows s' !! i = Some r
  /\ on_event s' (ResetClick true) = Some fresh
  /\ on_event s' (ResetClick false) = Some s'.
Proof.
  intros Hrun Hes Hr Hl. split; [| split; reflexivity].
  exact (run_keeps_locked es s s' i r Hrun Hes Hr Hl).
Qed.

Lemma locked_round_is_immutable_witness :
  let es := [DefaultRedInput "7"; CellInput 0 K_y "9"; CellInput 1 K_blue "3";
             RedSignClick 1; PickerPlusClick; DoneClick; DoneClick] in
  run after_round_one es = Some after_round_three
  /\ rows after_round_three !! 0%nat
     = Some (lock_row (set_key makeBlankRow K_y (Num 5)) (Num 0)).
Proof.
  intros es.
  assert (Hrun : run after_round_one es = Some after_round_three)
    by (vm_compute; reflexivity).
  split; [exact Hrun|].
  refine (proj1 (locked_round_is_immutable after_round_one after_round_three
                   es 0 _ Hrun _ eq_refl eq_refl)).
  repeat constructor.
Defined.

(** C10.  In every state a game reaches from the initial one through
    user actions (field edits, sign toggles, round completions, changes
    of the default number of red dice, resets), a round that is not
    locked has [redCount] 0. *)
Theorem unlocked_round_has_redCount_zero (s : session) (i : nat) (r : row) :
  reachable s -> rows s !! i = Some r -> locked r = false ->
  redCount r = Num 0.
Proof.
  intros Hs Hr Hl.
  pose proof (reachable_ok s Hs) as Hok.
  pose proof (Forall_lookup_1 _ _ _ _ (ok_rows s Hok) Hr) as Hrow.
  exact (ok_unlocked r Hrow Hl).
Qed.

Lemma unlocked_round_has_redCount_zero_witness :
  let es := [CellInput 0 K_y "5"; PickerPlusClick; PickerPlusClick; DoneClick;
             CellInput 1 K_redSum "-4"] in
  run fresh es = Some second_round_open
  /\ rows second_round_open !! 1%nat
     = Some (set_key makeBlankRow K_redSum (Num (-4)))
  /\ redCount (set_key makeBlankRow K_redSum (Num (-4))) = Num 0.
Proof.
  intros es.
  assert (Hrun : run fresh es = Some second_round_open)
    by (vm_compute; reflexivity).
  split; [exact Hrun|]. split; [reflexivity|].
  apply (unlocked_round_has_redCount_zero second_round_open 1).
  - exists es. exact Hrun.
  - reflexivity.
  - reflexivity.
Defined.

(** The claim C4 as stated fails: in the finished game, reached by ten
    completions, with the default number of red dice then set to 5, the
    last round is locked with [redCount] 0, and [doneRound] sets its
    [redCount] to 5. *)
Lemma doneRound_overwrites_locked_redCount :
  let s := finished_game (Num 5) in
  run fresh (replicate 10 DoneClick ++ [DefaultRedInput "5"])%list = Some s
  /\ activeRound s = 9%nat
  /\ rows s !! 9%nat = Some (lock_row makeBlankRow (Num 0))
  /\ locked (lock_row makeBlankRow (Num 0)) = true
  /\ (s' ← doneRound s; rows s' !! 9%nat) = Some (lock_row makeBlankRow (Num 5))
  /\ lock_row makeBlankRow (Num 5) <> lock_row makeBlankRow (Num 0).
Proof.
  cbv zeta. split; [vm_compute; reflexivity|].
  repeat split; try reflexivity. discriminate.
Qed.

(** C4, amended.  [doneRound] does not test the lock.  Applied when the
    active round is already locked it raises no error and leaves the
    seven dice fields and [locked = true] of that round as they are,
    but it writes the current default number of red dice into
    [redCount]; the round is returned unchanged when the two already
    agree.  A locked round cannot be completed again through the sheet:
    the "Done" button is rendered only while the active round is
    unlocked. *)
Theorem doneRound_on_locked_round (s : session) (r : row) :
  rows s !! activeRound s = Some r -> locked r = true ->
  (exists s' : session,
      doneRound s = Some s'
      /\ rows s' !! activeRound s =
         Some (mkRow (y r) (purp r) (blue r) (redSum r) (defaultRedCount s)
                     (green r) (clear r) (pink r) true)
      /\ (redCount r = defaultRedCount s -> rows s' = rows s))
  /\ on_event s DoneClick = None.
Proof.
  intros Hr Hl. split.
  - eexists. split; [apply (doneRound_at _ _ Hr)|]. simpl. split.
    + apply list_lookup_insert_eq. exact (lookup_lt_Some _ _ _ Hr).
    + intros E. apply list_insert_id. rewrite Hr. f_equal.
      destruct r; simpl in *. subst. reflexivity.
  - simpl. rewrite Hr, Hl. reflexivity.
Qed.

Lemma doneRound_on_locked_round_witness :
  let s := finished_game (Num 0) in
  rows s !! activeRound s = Some (lock_row makeBlankRow (Num 0))
  /\ on_event s DoneClick = None
  /\ exists s', doneRound s = Some s' /\ rows s' = rows s.
Proof.
  intros s.
  destruct (doneRound_on_locked_round s (lock_row makeBlankRow (Num 0))
              eq_refl eq_refl) as [(s' & Hd & _ & Hsame) Hnone].
  split; [reflexivity|]. split; [exact Hnone|].
  exists s'. split; [exact Hd | apply Hsame; reflexivity].
Defined.

(** C6.  [doneRound] locks the active round, with the current default
    number of red dice written into its [redCount] and its dice fields
    kept, leaves the other rounds alone, and moves the active round to
    [min(activeRound + 1, 9)]: one further, never past index 9 and never
    back to the start.  Ten completions in a row from the initial state
    are all available, lock all ten rounds, leave the active round at
    index 9 and make [allLocked] true. *)
Theorem doneRound_completes_active_round (s : session) (r : row) :
  rows s !! activeRound s = Some r ->
  (exists s' : session,
      doneRound s = Some s'
      /\ rows s' !! activeRound s =
         Some (mkRow (y r) (purp r) (blue r) (redSum r) (defaultRedCount s)
                     (green r) (clear r) (pink r) true)
      /\ (forall j : nat, j <> activeRound s -> rows s' !! j = rows s !! j)
      /\ length (rows s') = length (rows s)
      /\ activeRound s' = Nat.min (activeRound s + 1) 9
      /\ (activeRound s' <= 9)%nat
      /\ ((activeRound s <= 9)%nat -> (activeRound s <= activeRound s')%nat)
      /\ defaultRedCount s' = defaultRedCount s
      /\ playerName s' = playerName s
      /\ hasGlitterBlue s' = hasGlitterBlue s)
  /\ (let s10 := finished_game (Num 0) in
      doneRound_times 10 fresh = Some s10
      /\ run fresh (replicate 10 DoneClick) = Some s10
      /\ length (rows s10) = 10%nat
      /\ Forall (fun r => locked r = true) (rows s10)
      /\ activeRound s10 = 9%nat
      /\ allLocked (rows s10) = true).
Proof.
  intros Hr. split.
  - eexists. split; [apply (doneRound_at _ _ Hr)|]. simpl.
    split; [apply list_lookup_insert_eq; exact (lookup_lt_Some _ _ _ Hr)|].
    split; [intros j Hj; apply list_lookup_insert_ne; auto|].
    split; [apply length_insert|].
    repeat split; lia.
  - cbv zeta. split; [vm_compute; reflexivity|].
    split; [vm_compute; reflexivity|].
    split; [reflexivity|]. split; [repeat constructor|].
    split; reflexivity.
Qed.

Lemma doneRound_completes_active_round_witness :
  rows fresh !! activeRound fresh = Some makeBlankRow
  /\ on_event fresh DoneClick = Some first_round_done
  /\ rows first_round_done !! 0%nat = Some (lock_row makeBlankRow (Num 0))
  /\ activeRound first_round_done = 1%nat.
Proof.
  split; [reflexivity|].
  destruct (proj1 (doneRound_completes_active_round fresh makeBlankRow eq_refl))
    as (s' & Hd & Hrow & _ & _ & Ha & _).
  assert (E : s' = first_round_done)
    by (apply (inj Some); rewrite <- Hd; reflexivity).
  subst s'. split; [reflexivity|]. split; [exact Hrow | exact Ha].
Defined.

(** ** What the cells store *)

(** The claim C5 as stated fails on the six columns other than the red
    sum: their cells are [CellNumber]s without [allowNegative], which
    delete a leading minus sign with the other non-digits, so ["-007"]
    typed into yellow stores 7. *)
Lemma minus_007_in_yellow_stores_7 :
  cell_handle K_y false "-007" = Some (Num 7)
  /\ (rows <$> on_event fresh (CellInput 0 K_y "-007"))
     = Some (set_key makeBlankRow K_y (Num 7) :: makeBlankRows 9)
  /\ ~ (forall k : key, cell_handle k false "-007" = Some (Num (-7))).
Proof.
  split; [reflexivity|]. split; [reflexivity|].
  intros H. specialize (H K_y). discriminate H.
Qed.

(** C5, amended.  For every text typed into an enabled cell, the
    handler deletes every character that is not a digit, keeps the
    first three digits, and stores the number they denote; the cell of
    the red sum alone first takes one leading minus sign off the text
    and stores the negated number ([-0] when the number is zero).  So a
    stored value lies in [-999, 999] (in [0, 999] outside the red sum),
    and every dice field of every round of a game is a finite number
    in [-999, 999].  ["12x3"] stores 123 in any column; ["-"] stores 0
    ([-0] in the red sum); ["-007"] stores -7 in the red sum and 7 in
    the six other columns. *)
Theorem cell_coercion :
  (forall (k : key) (text : string),
      let signed :=
        match k with K_redSum => startsWith_minus text | _ => false end in
      let digits :=
        slice_to 3 (strip_non_digits
                      (if signed then slice_from_1 text else text)) in
      let n := digits_value 0 digits in
      0 <= n <= 999
      /\ all_digits digits = true
      /\ (String.length digits <= 3)%nat
      /\ cell_handle k false text =
         Some (if signed then (if n =? 0 then NegZero else Num (- n))
               else Num n))
  /\ (forall (k : key) (text : string),
        exists v : value,
          cell_handle k false text = Some v
          /\ finite v /\ -999 <= mag v <= 999
          /\ (k <> K_redSum -> v = Num (mag v) /\ 0 <= mag v))
  /\ (forall (s : session) (i : nat) (r : row),
        reachable s -> rows s !! i = Some r ->
        Forall (fun v => finite v /\ -999 <= mag v <= 999) (dice_fields r))
  /\ (forall k : key, cell_handle k false "12x3" = Some (Num 123))
  /\ (forall k : key, k <> K_redSum ->
        cell_handle k false "-" = Some (Num 0)
        /\ cell_handle k false "-007" = Some (Num 7))
  /\ cell_handle K_redSum false "-" = Some NegZero
  /\ mag NegZero = 0
  /\ cell_handle K_redSum false "-007" = Some (Num (-7)).
Proof.
  assert (A : forall (k : key) (text : string),
      let signed :=
        match k with K_redSum => startsWith_minus text | _ => false end in
      let digits :=
        slice_to 3 (strip_non_digits
                      (if signed then slice_from_1 text else text)) in
      let n := digits_value 0 digits in
      0 <= n <= 999
      /\ all_digits digits = true
      /\ (String.length digits <= 3)%nat
      /\ cell_handle k false text =
         Some (if signed then (if n =? 0 then NegZero else Num (- n))
               else Num n)).
  { intros k text. cbv zeta.
    split; [| split; [apply slice_to_all_digits, strip_all_digits |
                      split; [apply slice_to_length|]]].
    - destruct k;
        first [ exact (proj1 (coerce_value false text))
              | exact (proj1 (coerce_value true text)) ].
    - destruct k; unfold cell_handle, CellNumber_handle, NumberInput_handle;
        f_equal;
        first [ exact (proj2 (coerce_value false text))
              | exact (proj2 (coerce_value true text)) ]. }
  split; [exact A|]. split; [| split].
  - intros k text. destruct (A k text) as (Hn & _ & _ & Hc). cbv zeta in Hn, Hc.
    eexists. split; [exact Hc|].
    destruct k; cbn [mag] in *;
      try (split; [reflexivity | split; [lia | intros _; split; [reflexivity | lia]]]).
    destruct (startsWith_minus text).
    + destruct (Z.eqb_spec (digits_value 0
          (slice_to 3 (strip_non_digits (slice_from_1 text)))) 0);
        (split; [reflexivity | split; [cbn [mag]; lia | intros C; contradiction]]).
    + split; [reflexivity | split; [cbn [mag]; lia | intros C; contradiction]].
  - intros s i r Hs Hr.
    pose proof (reachable_ok s Hs) as Hok.
    exact (ok_dice r (Forall_lookup_1 _ _ _ _ (ok_rows s Hok) Hr)).
  - split; [intros k; destruct k; reflexivity|].
    split; [intros k Hk; destruct k; try contradiction; split; reflexivity|].
    split; [reflexivity|]. split; reflexivity.
Qed.

(** ** CSV export *)

Lemma no_char_app (c : ascii) (a b : string) :
  no_char c (a ++ b) = no_char c a && no_char c b.
Proof.
  induction a as [| x a IH]; simpl; [reflexivity|].
  rewrite IH. apply andb_assoc.
Qed.

Lemma no_char_join (c : ascii) (sep : string) (l : list string) :
  no_char c sep = true -> Forall (fun s => no_char c s = true) l ->
  no_char c (join sep l) = true.
Proof.
  intros Hsep H. induction H as [| s l Hs Hl IH]; [reflexivity|].
  destruct l as [| s' l']; [exact Hs|].
  change (join sep (s :: s' :: l')) with (s ++ sep ++ join sep (s' :: l')).
  rewrite !no_char_app, Hs, Hsep, IH. reflexivity.
Qed.

Lemma split_on_no_char (c : ascii) (s : string) :
  no_char c s = true -> split_on c s = [s].
Proof.
  induction s as [| a t IH]; simpl; [reflexivity|].
  intros H. apply andb_prop in H as [Ha Ht].
  destruct (Ascii.eqb a c); [discriminate Ha|].
  rewrite (IH Ht). reflexivity.
Qed.

Lemma split_on_app_sep (c : ascii) (a b : string) :
  no_char c a = true ->
  split_on c (a ++ String c b) = a :: split_on c b.
Proof.
  induction a as [| x a IH]; simpl.
  - intros _. rewrite Ascii.eqb_refl. reflexivity.
  - intros H. apply andb_prop in H as [Hx Ha].
    destruct (Ascii.eqb x c); [discriminate Hx|].
    rewrite (IH Ha). reflexivity.
Qed.

(** Splitting a joined list gives the list back, when no element
    contains the separator. *)
Lemma split_on_join (c : ascii) (l : list string) :
  l <> [] -> Forall (fun s => no_char c s = true) l ->
  split_on c (join (String c "") l) = l.
Proof.
  intros Hne H. induction H as [| s l Hs Hl IH]; [contradiction|].
  destruct l as [| s' l'].
  - simpl. apply split_on_no_char, Hs.
  - change (join (String c "") (s :: s' :: l'))
      with (s ++ String c (join (String c "") (s' :: l'))).
    rewrite (split_on_app_sep _ _ _ Hs), IH; [reflexivity | discriminate].
Qed.

Lemma no_char_uint (c : ascii) (d : Decimal.uint) :
  is_digit c = false -> no_char c (NilEmpty.string_of_uint d) = true.
Proof.
  intros Hc. induction d as [| d IH | d IH | d IH | d IH | d IH | d IH
                              | d IH | d IH | d IH | d IH];
    cbn [NilEmpty.string_of_uint no_char];
    [reflexivity | ..]; rewrite IH, andb_true_r;
    match goal with
    | |- negb (Ascii.eqb ?a c) = true =>
        destruct (Ascii.eqb_spec a c) as [<- | _];
        [discriminate Hc | reflexivity]
    end.
Qed.

Lemma no_char_Z_to_string (c : ascii) (z : Z) :
  c = comma \/ c = newline -> no_char c (Z_to_string z) = true.
Proof.
  intros Hc.
  assert (Hd : is_digit c = false) by (destruct Hc as [-> | ->]; reflexivity).
  assert (Hm : Ascii.eqb "-" c = false) by (destruct Hc as [-> | ->]; reflexivity).
  assert (U : forall d, no_char c (NilZero.string_of_uint d) = true).
  { intros d. unfold NilZero.string_of_uint.
    destruct d; try apply (no_char_uint c _ Hd).
    destruct Hc as [-> | ->]; reflexivity. }
  unfold Z_to_string, NilZero.string_of_int.
  destruct (Z.to_int z) as [d | d]; [apply U|].
  cbn [no_char]. rewrite Hm, U. reflexivity.
Qed.

Lemma no_char_drop_zeros_end (c : ascii) (s : string) :
  no_char c s = true -> no_char c (drop_zeros_end s) = true.
Proof.
  induction s as [| a t IH]; [reflexivity|].
  cbn [no_char drop_zeros_end]. intros H. apply andb_prop in H as [Ha Ht].
  specialize (IH Ht).
  destruct (drop_zeros_end t) as [| b t'].
  - destruct (Ascii.eqb a "0"); [reflexivity|].
    cbn [no_char]. rewrite Ha. reflexivity.
  - change (no_char c (String a (String b t')))
      with (negb (Ascii.eqb a c) && no_char c (String b t')).
    rewrite Ha, IH. reflexivity.
Qed.

Lemma no_char_exponent_text (c : ascii) (z : Z) :
  c = comma \/ c = newline -> no_char c (exponent_text z) = true.
Proof.
  intros Hc. unfold exponent_text. cbv zeta.
  pose proof (no_char_Z_to_string c z Hc) as Hd.
  pose proof (no_char_drop_zeros_end c _ Hd) as Hs.
  pose proof (no_char_Z_to_string c
                (Z.of_nat (String.length (Z_to_string z)) - 1) Hc) as He.
  assert (Hp : no_char c "." = true) by (destruct Hc as [-> | ->]; reflexivity).
  assert (Hx : no_char c "e+" = true) by (destruct Hc as [-> | ->]; reflexivity).
  destruct (drop_zeros_end (Z_to_string z)) as [| f rest]; [exact Hd|].
  cbn [no_char] in Hs. apply andb_prop in Hs as [Hf Hr].
  destruct rest as [| g rest].
  - cbn [no_char]. rewrite Hf, no_char_app, Hx, He. reflexivity.
  - change (no_char c (String f ("." ++ String g rest ++ "e+"
                                 ++ Z_to_string (Z.of_nat (String.length (Z_to_string z)) - 1))))
      with (negb (Ascii.eqb f c)
            && no_char c ("." ++ String g rest ++ "e+"
                          ++ Z_to_string (Z.of_nat (String.length (Z_to_string z)) - 1))).
    rewrite Hf, !no_char_app, Hp, Hr, Hx, He. reflexivity.
Qed.

Lemma no_char_number_text (c : ascii) (z : Z) :
  c = comma \/ c = newline -> no_char c (number_text z) = true.
Proof.
  intros Hc. unfold number_text. cbv zeta.
  destruct (Z.abs z <? max_exact); [apply no_char_Z_to_string, Hc|].
  assert (Ht : no_char c (if shortest (Z.abs z) <? 10 ^ 21
                          then Z_to_string (shortest (Z.abs z))
                          else exponent_text (shortest (Z.abs z))) = true).
  { destruct (shortest (Z.abs z) <? 10 ^ 21);
      [apply no_char_Z_to_string, Hc | apply no_char_exponent_text, Hc]. }
  destruct (z <? 0); [| exact Ht].
  rewrite no_char_app, Ht. destruct Hc as [-> | ->]; reflexivity.
Qed.

Lemma no_char_cell_text (c : ascii) (v : value) :
  c = comma \/ c = newline -> no_char c (cell_text v) = true.
Proof.
  intros Hc. destruct v as [z | | | [] |]; cbn [cell_text];
    try (destruct Hc as [-> | ->]; reflexivity).
  apply no_char_number_text, Hc.
Qed.

Lemma csv_header_clean (c : ascii) (h : bool) :
  c = comma \/ c = newline ->
  Forall (fun s => no_char c s = true) (csv_header h).
Proof.
  intros Hc. unfold csv_header.
  destruct h; destruct Hc as [-> | ->]; repeat constructor.
Qed.

Lemma csv_line_clean (c : ascii) (h : bool) (i : nat) (r : row) :
  c = comma \/ c = newline ->
  Forall (fun s => no_char c s = true) (csv_line h i r).
Proof.
  intros Hc. unfold csv_line.
  repeat (constructor;
          [first [apply no_char_cell_text, Hc | apply no_char_Z_to_string, Hc]|]).
  constructor.
Qed.

Lemma csv_footer_clean (c : ascii) (total : value) :
  c = comma \/ c = newline ->
  Forall (fun s => no_char c s = true) (csv_footer total).
Proof.
  intros Hc. unfold csv_footer.
  repeat (constructor;
          [first [apply no_char_cell_text, Hc
                 | destruct Hc as [-> | ->]; reflexivity]|]).
  constructor.
Qed.

Lemma joined_cells_no_newline (l : list string) :
  Forall (fun s => no_char newline s = true) l ->
  no_char newline (join "," l) = true.
Proof. apply no_char_join. reflexivity. Qed.

(** The lines of the export, before they are joined. *)
Lemma csv_lines_clean (h : bool) (rows : list row) (f : nat -> nat) :
  Forall (fun s => no_char newline s = true)
         (imap (fun i r => join "," (csv_line h (f i) r)) rows).
Proof.
  revert f. induction rows as [| r rest IH]; intros f; [constructor|].
  rewrite imap_cons. constructor.
  - apply joined_cells_no_newline, csv_line_clean. right. reflexivity.
  - apply (IH (f ∘ S)).
Qed.

Lemma csv_lines_split (h : bool) (rows : list row) (f : nat -> nat) :
  map (split_on comma) (imap (fun i r => join "," (csv_line h (f i) r)) rows)
  = imap (fun i r => csv_line h (f i) r) rows.
Proof.
  revert f. induction rows as [| r rest IH]; intros f; [reflexivity|].
  rewrite !imap_cons, map_cons. f_equal.
  - apply (split_on_join comma); [discriminate|].
    apply csv_line_clean. left. reflexivity.
  - apply (IH (f ∘ S)).
Qed.

(** Below 2^53 the numeral of a number is its decimal numeral, which
    reads back as the number. *)
Lemma number_text_exact (z : Z) :
  Z.abs z < 2 ^ 53 -> number_text z = Z_to_string z.
Proof.
  intros H. unfold number_text, max_exact.
  change (2 ^ 53) with 9007199254740992 in H.
  destruct (Z.ltb_spec (Z.abs z) 9007199254740992) as [_ | Hge]; [reflexivity | lia].
Qed.

Lemma read_Z_to_string (z : Z) : read_Z (Z_to_string z) = Some z.
Proof.
  unfold read_Z, Z_to_string.
  rewrite NilZero.isi.
  - cbn [option_map]. rewrite DecimalZ.of_to. reflexivity.
  - destruct z; cbn [Z.to_int]; try discriminate.
    intros H. injection H as H. exact (DecimalPos.Unsigned.to_uint_nonnil _ H).
  - destruct z; cbn [Z.to_int]; try discriminate.
    intros H. injection H as H. exact (DecimalPos.Unsigned.to_uint_nonnil _ H).
Qed.

Lemma read_cell (v : value) :
  finite v -> Z.abs (mag v) < 2 ^ 53 -> read_Z (cell_text v) = Some (mag v).
Proof.
  destruct v as [z | | | |]; intros H Hb; try discriminate H.
  - cbn [cell_text mag] in *. rewrite (number_text_exact z Hb).
    apply read_Z_to_string.
  - reflexivity.
Qed.

Lemma csv_lines_table (name : string) (rs : list row) (h : bool) (total : value) :
  split_on newline (buildCsvString name rs h total)
  = (join "," (csv_header h)
       :: imap (fun i r => join "," (csv_line h i r)) rs
       ++ [join "," (csv_footer total)])%list.
Proof.
  unfold buildCsvString. cbv zeta.
  apply (split_on_join newline); [discriminate|].
  constructor.
  - apply joined_cells_no_newline, csv_header_clean. right. reflexivity.
  - apply Forall_app. split.
    + apply (csv_lines_clean h rs (fun i => i)).
    + constructor; [| constructor].
      apply joined_cells_no_newline, csv_footer_clean. right. reflexivity.
Qed.

Lemma csv_rows_table (name : string) (rs : list row) (h : bool) (total : value) :
  csv_rows (buildCsvString name rs h total)
  = (csv_header h :: imap (csv_line h) rs ++ [csv_footer total])%list.
Proof.
  assert (Hh : split_on comma (join "," (csv_header h)) = csv_header h).
  { apply (split_on_join comma); [destruct h; discriminate|].
    apply csv_header_clean. left. reflexivity. }
  assert (Hf : split_on comma (join "," (csv_footer total)) = csv_footer total).
  { apply (split_on_join comma); [discriminate|].
    apply csv_footer_clean. left. reflexivity. }
  unfold csv_rows. rewrite csv_lines_table, map_cons, map_app, Hh.
  change (map (split_on comma) [join "," (csv_footer total)])
    with [split_on comma (join "," (csv_footer total))].
  rewrite Hf, (csv_lines_split h rs (fun i => i)). reflexivity.
Qed.

Lemma csv_rows_line (name : string) (rs : list row) (h : bool) (total : value)
    (i : nat) (r : row) :
  rs !! i = Some r ->
  csv_rows (buildCsvString name rs h total) !! S i = Some (csv_line h i r).
Proof.
  intros Hr. rewrite csv_rows_table.
  change ((csv_header h :: imap (csv_line h) rs ++ [csv_footer total])%list !! S i)
    with ((imap (csv_line h) rs ++ [csv_footer total])%list !! i).
  rewrite lookup_app_l by (rewrite length_imap; exact (lookup_lt_Some _ _ _ Hr)).
  rewrite list_lookup_imap, Hr. reflexivity.
Qed.

Lemma csv_rows_footer (name : string) (rs : list row) (h : bool) (total : value) :
  csv_rows (buildCsvString name rs h total) !! S (length rs)
  = Some (csv_footer total).
Proof.
  rewrite csv_rows_table.
  change ((csv_header h :: imap (csv_line h) rs ++ [csv_footer total])%list
            !! S (length rs))
    with ((imap (csv_line h) rs ++ [csv_footer total])%list !! length rs).
  rewrite lookup_app_r by (rewrite length_imap; lia).
  rewrite length_imap, Nat.sub_diag. reflexivity.
Qed.

(** The cells of a round whose numbers are finite and in the exact
    range read back as the numbers of the round. *)
Lemma csv_line_reads_back (h : bool) (i : nat) (r : row) (B : Z) :
  B * B + 8 * B < 2 ^ 53 -> bounded_row B r -> fields_finite r ->
  map read_Z (csv_line h i r)
  = map Some [Z.of_nat i + 1; mag (y r); mag (purp r) * 2;
              mag (blue r) * blue_weight h; mag (redSum r);
              mag (redCount r); mag (green r); mag (clear r);
              mag (pink r);
              mag (y r) + mag (purp r) * 2 + mag (blue r) * blue_weight h
              + mag (redSum r) * mag (redCount r)
              + mag (green r) + mag (clear r) + mag (pink r)].
Proof.
  intros HB Hr (Fy & Fp & Fb & Frs & Frc & Fg & Fc & Fk).
  destruct (bounded_row_fields B r Hr) as (By & Bp & Bb & Brs & Brc & Bg & Bc & Bk).
  destruct (computeRowTotal_finite_mag r h B HB Hr) as (Ft & Mt & Bt).
  change (2 ^ 53) with 9007199254740992 in *.
  assert (HBB : 0 <= B * B) by nia.
  assert (S : forall v, finite v -> - B <= mag v <= B ->
                read_Z (cell_text v) = Some (mag v)).
  { intros v Fv Bv. apply (read_cell v Fv).
    change (2 ^ 53) with 9007199254740992. apply Z.abs_lt. lia. }
  assert (D : forall v, finite v -> - B <= mag v <= B ->
                read_Z (cell_text (js_mul v (Num 2))) = Some (mag v * 2)).
  { intros v Fv Bv.
    assert (Hp : Z.abs (mag v * mag (Num 2)) < 2 ^ 53).
    { cbn [mag]. change (2 ^ 53) with 9007199254740992. apply Z.abs_lt. lia. }
    destruct (js_mul_finite v (Num 2) Fv eq_refl Hp) as [F M].
    rewrite (read_cell _ F), M by (rewrite M; exact Hp). reflexivity. }
  assert (E3 : read_Z (cell_text (if h then js_mul (blue r) (Num 2) else blue r))
               = Some (mag (blue r) * blue_weight h)).
  { unfold blue_weight. destruct h.
    - exact (D _ Fb Bb).
    - rewrite (S _ Fb Bb). f_equal. lia. }
  assert (E5 : read_Z (cell_text (js_or (redCount r) (Num 0)))
               = Some (mag (redCount r))).
  { unfold js_or. destruct (truthy (redCount r)) eqn:Tr.
    - exact (S _ Frc Brc).
    - destruct (redCount r) as [z | | | |]; try discriminate Frc.
      + cbn [truthy] in Tr. destruct (Z.eqb_spec z 0) as [-> | ?];
          [reflexivity | discriminate Tr].
      + reflexivity. }
  assert (E9 : read_Z (cell_text (computeRowTotal r h)) = Some (row_score r h)).
  { rewrite (read_cell _ Ft), Mt; [reflexivity|].
    rewrite Mt. change (2 ^ 53) with 9007199254740992. lia. }
  unfold csv_line. cbn [map].
  rewrite read_Z_to_string, (S _ Fy By), (D _ Fp Bp), E3, (S _ Frs Brs), E5,
    (S _ Fg Bg), (S _ Fc Bc), (S _ Fk Bk), E9.
  reflexivity.
Qed.

(** C9.  For every list of rounds, flag and game total, the text built
    by [buildCsvString] has [length rows + 2] lines of 10 fields each:
    the header with its ten labels, one line per round and the footer,
    which is eight empty fields, the label "Total" and the game total.
    The line of a round starts with its number, counted from 1, and its
    red-count field is "0" when the round has no red count.  When the
    numbers of the round are finite and in the range where doubles are
    exact, its ten fields read back as the round number, yellow, twice
    purple, blue times its weight, the red sum, the red count, green,
    clear, pink and the row total; the last field of the footer reads
    back as the game total.  The function only reads its arguments; the
    player name is not used. *)
Theorem buildCsvString_shape
    (playerName : string) (rows : list row) (hasGlitterBlue : bool)
    (gameTotal : value) :
  let csv := buildCsvString playerName rows hasGlitterBlue gameTotal in
  length (split_on newline csv) = (length rows + 2)%nat
  /\ length (csv_rows csv) = (length rows + 2)%nat
  /\ Forall (fun line => length line = 10%nat) (csv_rows csv)
  /\ csv_rows csv !! 0%nat
     = Some ["Round"; "Yellow"; "Purple(x2)";
             if hasGlitterBlue then "Blue(x2 glitter)" else "Blue";
             "Red Sum"; "Red Count"; "Green"; "Clear/White"; "Pink (Pity)";
             "Row Total"]
  /\ (forall (i : nat) (r : row),
        rows !! i = Some r ->
        exists cells : list string,
          csv_rows csv !! S i = Some cells
          /\ (cells !! 0%nat ≫= read_Z) = Some (Z.of_nat i + 1)
          /\ (truthy (redCount r) = false -> cells !! 5%nat = Some "0")
          /\ forall B : Z,
               B * B + 8 * B < 2 ^ 53 -> bounded_row B r -> fields_finite r ->
               map read_Z cells
               = map Some [Z.of_nat i + 1; mag (y r); mag (purp r) * 2;
                           mag (blue r) * (if hasGlitterBlue then 2 else 1);
                           mag (redSum r); mag (redCount r); mag (green r);
                           mag (clear r); mag (pink r);
                           mag (y r) + mag (purp r) * 2
                           + mag (blue r) * (if hasGlitterBlue then 2 else 1)
                           + mag (redSum r) * mag (redCount r)
                           + mag (green r) + mag (clear r) + mag (pink r)])
  /\ (exists last : string,
        csv_rows csv !! S (length rows)
        = Some [""; ""; ""; ""; ""; ""; ""; ""; "Total"; last]
        /\ (gameTotal = Undefined -> last = "")
        /\ forall t : Z,
             gameTotal = Num t -> Z.abs t < 2 ^ 53 -> read_Z last = Some t)
  /\ (forall name : string,
        buildCsvString name rows hasGlitterBlue gameTotal = csv).
Proof.
  cbv zeta.
  pose proof (csv_rows_table playerName rows hasGlitterBlue gameTotal) as T.
  split; [| split; [| split; [| split; [| split; [| split]]]]].
  - rewrite csv_lines_table. cbn [length].
    rewrite length_app, length_imap. cbn [length]. lia.
  - rewrite T. cbn [length]. rewrite length_app, length_imap. cbn [length]. lia.
  - rewrite T. constructor; [reflexivity|]. apply Forall_app. split.
    + apply Forall_lookup. intros i line Hi.
      rewrite list_lookup_imap in Hi.
      destruct (rows !! i) as [r |]; [| discriminate Hi].
      apply (inj Some) in Hi. subst line. reflexivity.
    + constructor; [reflexivity | constructor].
  - rewrite T. destruct hasGlitterBlue; reflexivity.
  - intros i r Hr. exists (csv_line hasGlitterBlue i r).
    split; [exact (csv_rows_line _ _ _ _ i r Hr)|].
    split; [exact (read_Z_to_string (Z.of_nat i + 1))|].
    split.
    + intros Hf. unfold csv_line, js_or. rewrite Hf. reflexivity.
    + intros B HB Hb Hfin.
      exact (csv_line_reads_back hasGlitterBlue i r B HB Hb Hfin).
  - exists (cell_text gameTotal).
    split; [exact (csv_rows_footer _ _ _ _)|].
    split; [intros ->; reflexivity|].
    intros t -> Ht. exact (read_cell (Num t) eq_refl Ht).
  - intros name. reflexivity.
Qed.

(** The export of two rounds, the second without a red count. *)
Lemma buildCsvString_shape_witness :
  let rows := [mkRow (Num 5) (Num 3) (Num 4) (Num (-7)) (Num 3) (Num 0)
                     (Num 1) (Num 2) true;
               makeBlankRow] in
  length (split_on newline (buildCsvString "Ann" rows true (Num 11))) = 4%nat
  /\ exists cells : list string,
       csv_rows (buildCsvString "Ann" rows true (Num 11)) !! 1%nat = Some cells
       /\ map read_Z cells
          = map Some [1; 5; 3 * 2; 4 * 2; -7; 3; 0; 1; 2;
                      5 + 3 * 2 + 4 * 2 + -7 * 3 + 0 + 1 + 2].
Proof.
  intros rows.
  destruct (buildCsvString_shape "Ann" rows true (Num 11))
    as (Hl & _ & _ & _ & Hrow & _).
  split; [exact Hl|].
  destruct (Hrow 0%nat _ eq_refl) as (cells & Hc & _ & _ & Hread).
  exists cells. split; [exact Hc|].
  apply (Hread 999 bound_999).
  - repeat constructor; vm_compute; discriminate.
  - repeat split.
Defined.

(** ** Loading a snapshot *)

Lemma assoc_without_same (name : string) (fields : list (string * json)) :
  assoc name (without name fields) = None.
Proof.
  induction fields as [| [k v] rest IH]; [reflexivity|].
  cbn [without]. destruct (String.eqb_spec k name) as [E | E]; [exact IH|].
  cbn [assoc]. destruct (String.eqb_spec k name); [contradiction | exact IH].
Qed.

Lemma assoc_without_other (name other : string) (fields : list (string * json)) :
  other <> name ->
  assoc other (without name fields) = assoc other fields.
Proof.
  intros Hne. induction fields as [| [k v] rest IH]; [reflexivity|].
  cbn [without assoc]. destruct (String.eqb_spec k name) as [E | E].
  - destruct (String.eqb_spec k other) as [E' | E']; [congruence | exact IH].
  - cbn [assoc]. rewrite IH. reflexivity.
Qed.

(** The initial untyped state is the initial session. *)
Lemma initial_ustate_is_fresh : session_of_ustate initial_ustate = Some fresh.
Proof. reflexivity. Qed.

(** The claim C8 as stated fails for a field that is present but
    malformed: a snapshot whose [activeRound] is the text "x", or the
    number 50, is loaded with that value as the active round, not with
    the default 0; likewise a negative [defaultRedCount] and a numeric
    [playerName] are kept. *)
Lemma load_keeps_malformed_activeRound :
  well_formed_activeRound (JStr "x") = false
  /\ u_activeRound (load (Parsed (JObj [("activeRound", JStr "x")]))) = JStr "x"
  /\ well_formed_activeRound (JNum 50) = false
  /\ u_activeRound (load (Parsed (JObj [("activeRound", JNum 50)]))) = JNum 50
  /\ well_formed_defaultRedCount (JNum (-5)) = false
  /\ u_defaultRedCount (load (Parsed (JObj [("defaultRedCount", JNum (-5))])))
     = JNum (-5)
  /\ well_formed_playerName (JNum 42) = false
  /\ u_playerName (load (Parsed (JObj [("playerName", JNum 42)]))) = JNum 42
  /\ ~ (forall (saved v : json),
          get_prop saved "activeRound" = Some v ->
          well_formed_activeRound v = false ->
          u_activeRound (load (Parsed saved)) = u_activeRound initial_ustate).
Proof.
  repeat split.
  intros H.
  specialize (H (JObj [("activeRound", JStr "x")]) (JStr "x") eq_refl eq_refl).
  discriminate H.
Qed.

(** C8, amended.  Loading never fails: when the stored text does not
    parse, or parses to [null] or another falsy value, the state stays
    the initial one.  Otherwise every field is decided on its own:
    [rows], [activeRound] and [playerName] take the stored value when
    it is present and truthy and their initial value when it is absent
    or falsy; [defaultRedCount] takes the stored value unless it is
    absent or [null]; [hasGlitterBlue] is the truthiness of the stored
    value, false when absent.  Removing one property from a snapshot
    puts the initial value in that field and leaves the four others as
    they were loaded.  A stored value that is present is not validated:
    it is kept whatever its type or range. *)
Theorem load_falls_back_per_field :
  load ParseError = initial_ustate
  /\ (forall saved : json,
        json_truthy saved = false -> load (Parsed saved) = initial_ustate)
  /\ (forall saved : json,
        json_truthy saved = true ->
        let u := load (Parsed saved) in
        (get_prop saved "rows" = None -> u_rows u = u_rows initial_ustate)
        /\ (get_prop saved "activeRound" = None -> u_activeRound u = JNum 0)
        /\ (get_prop saved "defaultRedCount" = None -> u_defaultRedCount u = JNum 0)
        /\ (get_prop saved "playerName" = None -> u_playerName u = JStr "Player")
        /\ (get_prop saved "hasGlitterBlue" = None -> u_hasGlitterBlue u = false)
        /\ (forall v : json, get_prop saved "rows" = Some v ->
              u_rows u = if json_truthy v then v else u_rows initial_ustate)
        /\ (forall v : json, get_prop saved "activeRound" = Some v ->
              u_activeRound u = if json_truthy v then v else JNum 0)
        /\ (forall v : json, get_prop saved "defaultRedCount" = Some v ->
              u_defaultRedCount u = match v with JNull => JNum 0 | _ => v end)
        /\ (forall v : json, get_prop saved "playerName" = Some v ->
              u_playerName u = if json_truthy v then v else JStr "Player")
        /\ (forall v : json, get_prop saved "hasGlitterBlue" = Some v ->
              u_hasGlitterBlue u = json_truthy v))
  /\ (forall (fields : list (string * json)) (name : string),
        let u := load (Parsed (JObj fields)) in
        let u' := load (Parsed (JObj (without name fields))) in
        (u_rows u' = if String.eqb name "rows" then u_rows initial_ustate
                     else u_rows u)
        /\ (u_activeRound u' = if String.eqb name "activeRound" then JNum 0
                               else u_activeRound u)
        /\ (u_defaultRedCount u' = if String.eqb name "defaultRedCount" then JNum 0
                                   else u_defaultRedCount u)
        /\ (u_playerName u' = if String.eqb name "playerName" then JStr "Player"
                              else u_playerName u)
        /\ (u_hasGlitterBlue u' = if String.eqb name "hasGlitterBlue" then false
                                  else u_hasGlitterBlue u)).
Proof.
  split; [reflexivity|]. split; [| split].
  - intros saved H. unfold load, load_effect. rewrite H. reflexivity.
  - intros saved H. cbv zeta. unfold load, load_effect. rewrite H. simpl.
    repeat split; try (intros -> ; reflexivity);
      try (intros v -> ; reflexivity).
  - intros fields name. cbv zeta. unfold load, load_effect. simpl.
    assert (P : forall other : string,
               assoc other (without name fields)
               = if String.eqb name other then None else assoc other fields).
    { intros other. destruct (String.eqb_spec name other) as [<- | Hne].
      - apply assoc_without_same.
      - apply assoc_without_other. auto. }
    rewrite !P.
    repeat split;
      match goal with
      | |- context [String.eqb name ?k] => destruct (String.eqb name k)
      end; reflexivity.
Qed.

(** ** Game total *)

(** C7.  For every sequence of rounds and either value of the flag,
    [gameTotal] adds the row totals of all the rounds of the sequence,
    whatever their [locked] flags: changing the flags leaves the total
    as it is.  When the numbers of the rounds are at most [B] in
    magnitude and the sequence is short enough for its sums to stay
    below 2^53 ([length * (B * B + 8 * B) < 2^53], the range in which
    the doubles add exactly), the total is the integer sum of the row
    scores.  In a game the sequence always has ten rounds. *)
Theorem gameTotal_sum_of_rows (rs : list row) (hasGlitterBlue : bool) (B : Z) :
  Forall (bounded_row B) rs ->
  Z.of_nat (length rs) * (B * B + 8 * B) < 2 ^ 53 ->
  gameTotal rs hasGlitterBlue = Num (sum_scores rs hasGlitterBlue)
  /\ sum_scores rs hasGlitterBlue
     = fold_right Z.add 0
         (map (fun r => mag (computeRowTotal r hasGlitterBlue)) rs)
  /\ (forall (l : list row) (f : row -> bool),
        gameTotal (map (fun r => with_locked r (f r)) l) hasGlitterBlue
        = gameTotal l hasGlitterBlue)
  /\ (forall s : session, reachable s -> length (rows s) = 10%nat).
Proof.
  intros Hb HL.
  split; [exact (gameTotal_Num rs hasGlitterBlue B Hb HL)|].
  split; [| split].
  - destruct (bounded_rows_bound rs B Hb HL) as [-> | [B0 HB]]; [reflexivity|].
    rewrite <- (proj2 (rowTotals_bounded rs hasGlitterBlue B HB Hb)).
    unfold rowTotals. rewrite map_map. reflexivity.
  - intros l f. unfold gameTotal. rewrite rowTotals_with_locked. reflexivity.
  - intros s Hs. exact (ok_length s (reachable_ok s Hs)).
Qed.

Lemma gameTotal_sum_of_rows_witness :
  Z.of_nat (length [sample_row; sample_row]) * (999 * 999 + 8 * 999) < 2 ^ 53
  /\ gameTotal [sample_row; sample_row] true = Num (-10 + -10).
Proof.
  assert (HL : Z.of_nat (length [sample_row; sample_row])
               * (999 * 999 + 8 * 999) < 2 ^ 53) by (vm_compute; reflexivity).
  split; [exact HL|].
  refine (proj1 (gameTotal_sum_of_rows [sample_row; sample_row] true 999 _ HL)).
  repeat constructor; vm_compute; discriminate.
Defined.

(** * Further properties *)

(** ** The rounds are played in order *)

Lemma cell_enabled_inv (s : session) (j : nat) (r : row) (k : key) :
  cell_disabled s j r k = false ->
  locked r = false /\ j = activeRound s /\ (j = 0%nat -> k = K_y).
Proof.
  unfold cell_disabled. cbv zeta.
  destruct (locked r); [destruct k; discriminate|].
  destruct (Nat.eqb_spec j (activeRound s)) as [Ea | Ea];
    [| destruct k; discriminate].
  destruct (Nat.eqb_spec j 0) as [E0 | E0]; destruct k; simpl; intros H;
    try discriminate H; repeat split; auto; intros; contradiction.
Qed.

Lemma get_set_key_same (r : row) (k : key) (v : value) :
  get_key (set_key r k v) k = v.
Proof. destruct k; reflexivity. Qed.

Lemma get_set_key_other (r : row) (k k' : key) (v : value) :
  k' <> k -> get_key (set_key r k v) k' = get_key r k'.
Proof. destruct k, k'; intros H; try reflexivity; contradiction. Qed.

Lemma locked_set_key (r : row) (k : key) (v : value) :
  locked (set_key r k v) = locked r.
Proof. destruct k; reflexivity. Qed.

Lemma redCount_set_key (r : row) (k : key) (v : value) :
  redCount (set_key r k v) = redCount r.
Proof. destruct k; reflexivity. Qed.

Lemma get_key_lock_row (r : row) (n : value) (k : key) :
  get_key (lock_row r n) k = get_key r k.
Proof. destruct k; reflexivity. Qed.

Lemma coerce_false_digits_ok (text : string) : digits_ok (coerce false text).
Proof.
  destruct (coerce_value false text) as [Hn Hc]. cbv zeta in Hn, Hc.
  cbn [andb] in Hn, Hc. rewrite Hc. eexists. split; [reflexivity | exact Hn].
Qed.

Lemma game_ok_fresh : game_ok fresh.
Proof.
  assert (B : forall (i : nat) (r : row),
             rows fresh !! i = Some r -> r = makeBlankRow).
  { intros i r H. cbn [rows fresh] in H. unfold makeBlankRows in H.
    apply lookup_replicate in H as [-> _]. reflexivity. }
  constructor.
  - cbn. lia.
  - cbn [activeRound fresh]. intros i r _ Hi. lia.
  - intros i r H _. exact (B i r H).
  - intros r H Hl. rewrite (B _ r H) in Hl. discriminate Hl.
  - intros i r k H _. rewrite (B i r H).
    exists 0. split; [destruct k; reflexivity | lia].
  - intros r k H _. rewrite (B _ r H). destruct k; reflexivity.
Qed.

Lemma game_ok_same_rows (s s' : session) :
  rows s' = rows s -> activeRound s' = activeRound s ->
  game_ok s -> game_ok s'.
Proof.
  intros Er Ea [H1 H2 H3 H4 H5 H6].
  constructor; rewrite ?Er, ?Ea; assumption.
Qed.

Lemma game_ok_edit (s : session) (j : nat) (rj : row) (k : key) (v : value) :
  game_ok s -> rows s !! j = Some rj -> locked rj = false ->
  j = activeRound s -> (j = 0%nat -> k = K_y) ->
  (k <> K_redSum -> digits_ok v) ->
  game_ok (with_rows s (<[j := set_key rj k v]> (rows s))).
Proof.
  intros [H1 H2 H3 H4 H5 H6] Hj Hl Ea E0 Hv.
  pose proof (lookup_lt_Some _ _ _ Hj) as Hlt.
  constructor; cbn [rows activeRound with_rows].
  - exact H1.
  - intros i r Hi Hlti. rewrite list_lookup_insert_ne in Hi by lia. eauto.
  - intros i r Hi Hlti. rewrite list_lookup_insert_ne in Hi by lia. eauto.
  - intros r Hi Hr. rewrite <- Ea, list_lookup_insert_eq in Hi by exact Hlt.
    apply (inj Some) in Hi. subst r. rewrite locked_set_key in Hr. congruence.
  - intros i r k' Hi Hk'. destruct (decide (i = j)) as [-> | Hne].
    + rewrite list_lookup_insert_eq in Hi by exact Hlt.
      apply (inj Some) in Hi. subst r.
      destruct k, k'; try contradiction; cbn [get_key set_key y purp blue redSum green clear pink];
        first [ apply Hv; discriminate
              | exact (H5 j rj _ Hj Hk') ].
    + rewrite list_lookup_insert_ne in Hi by auto. eauto.
  - intros r k' Hi Hk'. destruct (decide (j = 0%nat)) as [-> | Hne].
    + rewrite list_lookup_insert_eq in Hi by exact Hlt.
      apply (inj Some) in Hi. subst r. rewrite (E0 eq_refl).
      rewrite get_set_key_other by exact Hk'. eauto.
    + rewrite list_lookup_insert_ne in Hi by auto. eauto.
Qed.

Lemma game_ok_done (s : session) (ra : row) :
  game_ok s -> rows s !! activeRound s = Some ra -> locked ra = false ->
  game_ok (mkSession
             (<[activeRound s := lock_row ra (defaultRedCount s)]> (rows s))
             (Nat.min (activeRound s + 1) 9)
             (defaultRedCount s) (playerName s) (hasGlitterBlue s)).
Proof.
  intros [H1 H2 H3 H4 H5 H6] Ha Hl.
  pose proof (lookup_lt_Some _ _ _ Ha) as Hlt.
  constructor; cbn [rows activeRound].
  - lia.
  - intros i r Hi Hlti. destruct (decide (i = activeRound s)) as [-> | Hne].
    + rewrite list_lookup_insert_eq in Hi by exact Hlt.
      apply (inj Some) in Hi. subst r. reflexivity.
    + rewrite list_lookup_insert_ne in Hi by auto. apply (H2 i r Hi). lia.
  - intros i r Hi Hlti. rewrite list_lookup_insert_ne in Hi by lia.
    apply (H3 i r Hi). lia.
  - intros r Hi Hr. destruct (decide (activeRound s = 9%nat)) as [E | E]; [lia|].
    rewrite list_lookup_insert_ne in Hi by lia.
    rewrite (H3 _ r Hi) in Hr by lia. discriminate Hr.
  - intros i r k Hi Hk. destruct (decide (i = activeRound s)) as [-> | Hne].
    + rewrite list_lookup_insert_eq in Hi by exact Hlt.
      apply (inj Some) in Hi. subst r. rewrite get_key_lock_row. eauto.
    + rewrite list_lookup_insert_ne in Hi by auto. eauto.
  - intros r k Hi Hk. destruct (decide (activeRound s = 0%nat)) as [E | E].
    + rewrite E in Hi, Ha.
      rewrite list_lookup_insert_eq in Hi by (rewrite <- E; exact Hlt).
      apply (inj Some) in Hi. subst r. rewrite get_key_lock_row. eauto.
    + rewrite list_lookup_insert_ne in Hi by auto. eauto.
Qed.

Lemma on_event_game_ok (s s' : session) (e : event) :
  game_ok s -> on_event s e = Some s' -> game_ok s'.
Proof.
  intros Hs He.
  destruct e as [j k text | j | | text | | | c | text | c].
  - cbn [on_event] in He.
    destruct (rows s !! j) as [rj |] eqn:Hj; [| discriminate He].
    assert (He' : on_event s (CellInput j k text) = Some s')
      by (cbn [on_event]; rewrite Hj; exact He).
    rewrite (CellInput_at _ _ _ _ _ Hj) in He'. apply (inj Some) in He' as <-.
    destruct (cell_disabled s j rj k) eqn:D; [exact Hs|].
    destruct (cell_enabled_inv _ _ _ _ D) as (Hl & Ea & E0).
    apply game_ok_edit; auto.
    intros Hk. destruct k; try contradiction; apply coerce_false_digits_ok.
  - cbn [on_event] in He.
    destruct (rows s !! j) as [rj |] eqn:Hj; [| discriminate He].
    destruct (locked rj) eqn:Lj; [discriminate He|].
    destruct (Nat.eqb_spec j (activeRound s)) as [Ea | Ea]; [| discriminate He].
    destruct (Nat.eqb_spec j 0) as [E0 | E0]; [discriminate He|].
    cbn [negb andb] in He.
    rewrite (setField_at _ _ _ _ _ Hj), Lj in He. apply (inj Some) in He as <-.
    apply game_ok_edit; auto; [intros; contradiction | intros H; contradiction].
  - cbn [on_event] in He.
    destruct (rows s !! activeRound s) as [ra |] eqn:Ha; [| discriminate He].
    destruct (locked ra) eqn:La; [discriminate He|]. cbn [negb] in He.
    rewrite (doneRound_at _ _ Ha) in He. apply (inj Some) in He as <-.
    apply game_ok_done; assumption.
  - apply (inj Some) in He as <-. apply (game_ok_same_rows s); auto.
  - apply (inj Some) in He as <-. apply (game_ok_same_rows s); auto.
  - apply (inj Some) in He as <-. apply (game_ok_same_rows s); auto.
  - apply (inj Some) in He as <-. apply (game_ok_same_rows s); auto.
  - apply (inj Some) in He as <-. apply (game_ok_same_rows s); auto.
  - apply (inj Some) in He as <-. destruct c; [exact game_ok_fresh | exact Hs].
Qed.

Lemma run_game_ok (es : list event) (s s' : session) :
  game_ok s -> run s es = Some s' -> game_ok s'.
Proof.
  revert s. induction es as [| e es IH]; intros s Hs Hrun; cbn [run] in Hrun.
  - apply (inj Some) in Hrun as <-. exact Hs.
  - destruct (on_event s e) as [s1 |] eqn:E; [| discriminate Hrun].
    exact (IH s1 (on_event_game_ok _ _ _ Hs E) Hrun).
Qed.

Lemma reachable_game_ok (s : session) : reachable s -> game_ok s.
Proof. intros [es Hes]. exact (run_game_ok es fresh s game_ok_fresh Hes). Qed.

Lemma allLocked_lookup (l : list row) :
  allLocked l = true <->
  (forall (i : nat) (r : row), l !! i = Some r -> locked r = true).
Proof.
  unfold allLocked. induction l as [| a l IH]; cbn [forallb].
  - split; [intros _ i r H; discriminate H | reflexivity].
  - rewrite andb_true_iff, IH. split.
    + intros [Ha Hl] [| i] r H.
      * apply (inj Some) in H. subst r. exact Ha.
      * exact (Hl i r H).
    + intros H. split; [exact (H 0%nat a eq_refl)|].
      intros i r Hi. exact (H (S i) r Hi).
Qed.

Lemma active_row_exists (s : session) :
  session_ok s -> exists r : row, rows s !! activeRound s = Some r.
Proof.
  intros [Hlen Hact _ _].
  destruct (rows s !! activeRound s) as [r |] eqn:E; [eauto|].
  apply lookup_ge_None in E. lia.
Qed.

Lemma computeRowTotal_Num (r : row) (h : bool) (B n : Z) :
  B * B + 8 * B < 2 ^ 53 -> bounded_row B r ->
  y r = Num n -> computeRowTotal r h = Num (row_score r h).
Proof.
  intros HB Hr Hy.
  destruct (computeRowTotal_steps r h B HB Hr)
    as ((Fp & Mp) & (Fb & Mb) & (Fred & Mred) & P & B0).
  cbv zeta in Fp, Mp, Fb, Mb, Fred, Mred.
  destruct (bounded_row_fields B r Hr) as (By & Bp & Bb & Brs & Brc & Bg & Bc & Bk).
  rewrite Hy in By. cbn [mag] in By.
  change (2 ^ 53) with 9007199254740992 in HB.
  assert (Hbw : - (2 * B) <= mag (blue r) * blue_weight h <= 2 * B)
    by (unfold blue_weight; destruct h; lia).
  unfold computeRowTotal, row_score. cbv zeta. rewrite Hy.
  change (clampNum (Num n)) with (Num n). cbn [mag].
  set (bw := mag (blue r) * blue_weight h) in *.
  set (pr := mag (redSum r) * mag (redCount r)) in *.
  set (BB := B * B) in *.
  rewrite (js_add_Num_l n _ Fp)
    by (rewrite Mp; change (2 ^ 53) with 9007199254740992; apply Z.abs_lt; lia).
  rewrite (js_add_Num_l _ _ Fb)
    by (rewrite Mp, Mb; change (2 ^ 53) with 9007199254740992;
        apply Z.abs_lt; lia).
  rewrite (js_add_Num_l _ _ Fred)
    by (rewrite Mp, Mb, Mred; change (2 ^ 53) with 9007199254740992;
        apply Z.abs_lt; lia).
  rewrite (js_add_Num_l _ _ (clampNum_finite (green r)))
    by (rewrite Mp, Mb, Mred, clampNum_mag;
        change (2 ^ 53) with 9007199254740992; apply Z.abs_lt; lia).
  rewrite (js_add_Num_l _ _ (clampNum_finite (clear r)))
    by (rewrite Mp, Mb, Mred, !clampNum_mag;
        change (2 ^ 53) with 9007199254740992; apply Z.abs_lt; lia).
  rewrite (js_add_Num_l _ _ (clampNum_finite (pink r)))
    by (rewrite Mp, Mb, Mred, !clampNum_mag;
        change (2 ^ 53) with 9007199254740992; apply Z.abs_lt; lia).
  rewrite Mp, Mb, Mred, !clampNum_mag. reflexivity.
Qed.

Lemma reachable_bounded (s : session) (i : nat) (r : row) :
  reachable s -> rows s !! i = Some r -> bounded_row 999 r.
Proof.
  intros Hs Hr. apply row_ok_bounded.
  exact (Forall_lookup_1 _ _ _ _ (ok_rows s (reachable_ok s Hs)) Hr).
Qed.

Lemma session_ok_gameTotal (s : session) (h : bool) :
  session_ok s -> gameTotal (rows s) h = Num (sum_scores (rows s) h).
Proof.
  intros Hok. destruct (session_ok_bounded s Hok) as [HB HL].
  exact (gameTotal_Num (rows s) h 999 HB HL).
Qed.

(** The numbers a game holds, field by field. *)
Lemma reachable_fields (s : session) (i : nat) (r : row) :
  reachable s -> rows s !! i = Some r ->
  (forall k : key, k <> K_redSum -> digits_ok (get_key r k))
  /\ dice_ok (redSum r)
  /\ count_ok (redCount r)
  /\ count_ok (defaultRedCount s).
Proof.
  intros Hs Hr.
  pose proof (reachable_ok s Hs) as Hok.
  pose proof (reachable_game_ok s Hs) as Hg.
  pose proof (Forall_lookup_1 _ _ _ _ (ok_rows s Hok) Hr) as Hrow.
  split; [intros k Hk; exact (ord_digits s Hg i r k Hr Hk)|].
  split; [apply (dice_fields_ok r), (ok_dice r Hrow)|].
  split; [exact (ok_count r Hrow) | exact (ok_default s Hok)].
Qed.

Lemma reachable_row_score_bounds (s : session) (i : nat) (r : row) (h : bool) :
  reachable s -> rows s !! i = Some r ->
  computeRowTotal r h = Num (row_score r h)
  /\ -98901 <= row_score r h <= 106893.
Proof.
  intros Hs Hr.
  destruct (reachable_fields s i r Hs Hr) as (Hd & [Frs Hrs] & (c & Hc & Hcr) & _).
  destruct (Hd K_y ltac:(discriminate)) as (ny & Ey & Hy).
  destruct (Hd K_purp ltac:(discriminate)) as (np & Ep & Hp).
  destruct (Hd K_blue ltac:(discriminate)) as (nb & Eb & Hb).
  destruct (Hd K_green ltac:(discriminate)) as (ng & Eg & Hg).
  destruct (Hd K_clear ltac:(discriminate)) as (nc & Ec & Hcl).
  destruct (Hd K_pink ltac:(discriminate)) as (nk & Ek & Hk).
  cbn [get_key] in *.
  split; [exact (computeRowTotal_Num r h 999 ny bound_999
                   (reachable_bounded s i r Hs Hr) Ey)|].
  unfold row_score, blue_weight. rewrite Ey, Ep, Eb, Eg, Ec, Ek, Hc.
  cbn [mag].
  assert (-98901 <= mag (redSum r) * c <= 98901) by nia.
  destruct h; lia.
Qed.

Lemma sum_scores_bounds (l : list row) (h : bool) (lo hi : Z) :
  Forall (fun r => lo <= row_score r h <= hi) l ->
  Z.of_nat (length l) * lo <= sum_scores l h <= Z.of_nat (length l) * hi.
Proof.
  intros H. induction H as [| r l Hr Hl IH].
  - cbn. lia.
  - cbn [sum_scores length]. rewrite Nat2Z.inj_succ. lia.
Qed.

(** X1.  In every state of a game the rounds are played in order: the
    active round is one of the ten rows, every round before it is
    locked, every round after it is still blank and unlocked, and so a
    locked round never comes after the active one. *)
Theorem rounds_played_in_order (s : session) (i : nat) (r : row) :
  reachable s -> rows s !! i = Some r ->
  length (rows s) = 10%nat
  /\ (activeRound s < 10)%nat
  /\ ((i < activeRound s)%nat -> locked r = true)
  /\ ((activeRound s < i)%nat -> r = makeBlankRow)
  /\ (locked r = true -> (i <= activeRound s)%nat).
Proof.
  intros Hs Hr.
  pose proof (reachable_ok s Hs) as Hok.
  pose proof (reachable_game_ok s Hs) as Hg.
  split; [exact (ok_length s Hok)|].
  split; [exact (ok_active s Hok)|].
  split; [exact (ord_before s Hg i r Hr)|].
  split; [exact (ord_after s Hg i r Hr)|].
  intros Hl. destruct (le_lt_dec i (activeRound s)) as [Hle | Hlt]; [exact Hle|].
  rewrite (ord_after s Hg i r Hr Hlt) in Hl. discriminate Hl.
Qed.

Lemma rounds_played_in_order_witness :
  run fresh [CellInput 0 K_y "5"; PickerPlusClick; PickerPlusClick; DoneClick;
             CellInput 1 K_redSum "-4"] = Some second_round_open
  /\ rows second_round_open !! 0%nat
     = Some (lock_row (set_key makeBlankRow K_y (Num 5)) (Num 2))
  /\ locked (lock_row (set_key makeBlankRow K_y (Num 5)) (Num 2)) = true.
Proof.
  assert (Hrun : run fresh [CellInput 0 K_y "5"; PickerPlusClick; PickerPlusClick;
                            DoneClick; CellInput 1 K_redSum "-4"]
                 = Some second_round_open) by (vm_compute; reflexivity).
  split; [exact Hrun|]. split; [reflexivity|].
  refine (proj1 (proj2 (proj2 (rounds_played_in_order second_round_open 0 _
                                 (ex_intro _ _ Hrun) eq_refl))) _).
  cbn. lia.
Defined.

(** X2.  In every state of a game [doneRound] is defined: its write to
    [copy[activeRound]] never falls outside the ten rows.  The "Done"
    button is missing exactly when all ten rounds are locked, which is
    exactly when the game total is shown; and from then on no user
    action other than a confirmed reset changes any round. *)
Theorem game_ends_when_all_locked (s : session) :
  reachable s ->
  is_Some (doneRound s)
  /\ (on_event s DoneClick = None <-> allLocked (rows s) = true)
  /\ (is_Some (game_total_shown s) <-> on_event s DoneClick = None)
  /\ (allLocked (rows s) = true ->
        activeRound s = 9%nat
        /\ forall (e : event) (s' : session),
             on_event s e = Some s' -> is_reset e = false ->
             rows s' = rows s /\ activeRound s' = 9%nat).
Proof.
  intros Hs.
  pose proof (reachable_ok s Hs) as Hok.
  pose proof (reachable_game_ok s Hs) as Hg.
  destruct (active_row_exists s Hok) as [ra Ha].
  assert (D : on_event s DoneClick = None <-> locked ra = true).
  { cbn [on_event]. rewrite Ha, (doneRound_at _ _ Ha).
    destruct (locked ra); cbn [negb]; split; intros H;
      first [reflexivity | discriminate H]. }
  assert (A : allLocked (rows s) = true <-> locked ra = true).
  { rewrite allLocked_lookup. split.
    - intros H. exact (H _ ra Ha).
    - intros Hl i r Hi.
      pose proof (ord_last s Hg ra Ha Hl) as E9.
      destruct (decide (i = activeRound s)) as [-> | Hne].
      + rewrite Ha in Hi. apply (inj Some) in Hi. subst r. exact Hl.
      + apply (ord_before s Hg i r Hi).
        pose proof (lookup_lt_Some _ _ _ Hi) as Hlt.
        rewrite (ok_length s Hok) in Hlt. unfold ROUNDS in Hlt. lia. }
  split; [rewrite (doneRound_at _ _ Ha); eexists; reflexivity|].
  split; [rewrite D, A; reflexivity|].
  split.
  { unfold game_total_shown. rewrite D, <- A.
    destruct (allLocked (rows s)); split; intros H;
      first [reflexivity | eexists; reflexivity | discriminate H
            | destruct H as [x H]; discriminate H]. }
  intros Hall. pose proof (proj1 A Hall) as Hl.
  pose proof (ord_last s Hg ra Ha Hl) as E9.
  split; [exact E9|]. intros e s' He Hn.
  pose proof (on_event_ok s s' e Hok He) as Hok'.
  pose proof (on_event_game_ok s s' e Hg He) as Hg'.
  assert (R : rows s' = rows s).
  { apply list_eq. intros i.
    destruct (rows s !! i) as [r |] eqn:Hi.
    - apply (on_event_keeps_locked s s' e i r He Hn Hi).
      exact (proj1 (allLocked_lookup (rows s)) Hall i r Hi).
    - apply lookup_ge_None in Hi. apply lookup_ge_None.
      rewrite (ok_length s' Hok'). rewrite (ok_length s Hok) in Hi. exact Hi. }
  split; [exact R|].
  destruct (active_row_exists s' Hok') as [ra' Ha'].
  apply (ord_last s' Hg' ra' Ha').
  rewrite R in Ha'.
  exact (proj1 (allLocked_lookup (rows s)) Hall _ ra' Ha').
Qed.

Lemma game_ends_when_all_locked_witness :
  run fresh (replicate 10 DoneClick) = Some (finished_game (Num 0))
  /\ on_event (finished_game (Num 0)) DoneClick = None
  /\ allLocked (rows (finished_game (Num 0))) = true.
Proof.
  assert (Hrun : run fresh (replicate 10 DoneClick)
                 = Some (finished_game (Num 0))) by (vm_compute; reflexivity).
  split; [exact Hrun|].
  assert (Hnone : on_event (finished_game (Num 0)) DoneClick = None)
    by reflexivity.
  split; [exact Hnone|].
  exact (proj1 (proj1 (proj2 (game_ends_when_all_locked (finished_game (Num 0))
                                (ex_intro _ _ Hrun)))) Hnone).
Defined.

(** X3.  In every state of a game the first round holds nothing but
    yellow: its six other dice fields are 0, and its row total is its
    yellow value, whatever the glitter flag. *)
Theorem first_round_is_yellow_only (s : session) (r : row) (h : bool) :
  reachable s -> rows s !! 0%nat = Some r ->
  purp r = Num 0 /\ blue r = Num 0 /\ redSum r = Num 0
  /\ green r = Num 0 /\ clear r = Num 0 /\ pink r = Num 0
  /\ exists n : Z, y r = Num n /\ 0 <= n <= 999
                   /\ computeRowTotal r h = Num n.
Proof.
  intros Hs Hr.
  pose proof (reachable_game_ok s Hs) as Hg.
  pose proof (fun k Hk => ord_first s Hg r k Hr Hk) as Z0.
  pose proof (Z0 K_purp ltac:(discriminate)) as Ep.
  pose proof (Z0 K_blue ltac:(discriminate)) as Eb.
  pose proof (Z0 K_redSum ltac:(discriminate)) as Ers.
  pose proof (Z0 K_green ltac:(discriminate)) as Eg.
  pose proof (Z0 K_clear ltac:(discriminate)) as Ec.
  pose proof (Z0 K_pink ltac:(discriminate)) as Ek.
  cbn [get_key] in *.
  repeat (split; [assumption|]).
  destruct (ord_digits s Hg 0%nat r K_y Hr ltac:(discriminate)) as (n & Ey & Hn).
  cbn [get_key] in Ey. exists n. split; [exact Ey|]. split; [exact Hn|].
  rewrite (computeRowTotal_Num r h 999 n bound_999
             (reachable_bounded s 0%nat r Hs Hr) Ey). f_equal.
  unfold row_score. rewrite Ey, Ep, Eb, Ers, Eg, Ec, Ek. cbn [mag]. lia.
Qed.

Lemma first_round_is_yellow_only_witness :
  run fresh [CellInput 0 K_y "5"; CellInput 0 K_purp "7"; CellInput 0 K_redSum "-3";
             DoneClick] = Some after_round_one
  /\ purp (lock_row (set_key makeBlankRow K_y (Num 5)) (Num 0)) = Num 0.
Proof.
  assert (Hrun : run fresh [CellInput 0 K_y "5"; CellInput 0 K_purp "7";
                            CellInput 0 K_redSum "-3"; DoneClick]
                 = Some after_round_one) by (vm_compute; reflexivity).
  split; [exact Hrun|].
  exact (proj1 (first_round_is_yellow_only after_round_one _ false
                  (ex_intro _ _ Hrun) eq_refl)).
Defined.

(** X4.  In every state of a game the stored numbers are in range: the
    six fields other than the red sum are integers from 0 to 999 (never
    negative), the red sum is a finite number from -999 to 999, and the
    red count of every round and the default number of red dice are
    integers from 0 to 99. *)
Theorem stored_numbers_in_range (s : session) (i : nat) (r : row) :
  reachable s -> rows s !! i = Some r ->
  (forall k : key, k <> K_redSum ->
     exists n : Z, get_key r k = Num n /\ 0 <= n <= 999)
  /\ (Number_isFinite (redSum r) = true /\ -999 <= mag (redSum r) <= 999)
  /\ (exists c : Z, redCount r = Num c /\ 0 <= c <= 99)
  /\ (exists d : Z, defaultRedCount s = Num d /\ 0 <= d <= 99).
Proof. intros Hs Hr. exact (reachable_fields s i r Hs Hr). Qed.

Lemma stored_numbers_in_range_witness :
  run fresh [CellInput 0 K_y "5"; PickerPlusClick; PickerPlusClick; DoneClick;
             CellInput 1 K_redSum "-4"] = Some second_round_open
  /\ exists d : Z, defaultRedCount second_round_open = Num d /\ 0 <= d <= 99.
Proof.
  assert (Hrun : run fresh [CellInput 0 K_y "5"; PickerPlusClick; PickerPlusClick;
                            DoneClick; CellInput 1 K_redSum "-4"]
                 = Some second_round_open) by (vm_compute; reflexivity).
  split; [exact Hrun|].
  exact (proj2 (proj2 (proj2 (stored_numbers_in_range second_round_open 1 _
                                (ex_intro _ _ Hrun) eq_refl)))).
Defined.

(** X5.  In every state of a game every row total is an integer between
    -98901 and 106893 and the game total an integer between -989010
    and 1068930, far below 2^53: the sums the sheet computes are exact. *)
Theorem scores_are_bounded (s : session) (h : bool) :
  reachable s ->
  (forall (i : nat) (r : row),
      rows s !! i = Some r ->
      exists t : Z, computeRowTotal r h = Num t /\ -98901 <= t <= 106893)
  /\ exists g : Z, gameTotal (rows s) h = Num g
                   /\ -989010 <= g <= 1068930 /\ Z.abs g < 2 ^ 53.
Proof.
  intros Hs. split.
  - intros i r Hr.
    destruct (reachable_row_score_bounds s i r h Hs Hr) as [E B]. eauto.
  - exists (sum_scores (rows s) h).
    split; [exact (session_ok_gameTotal s h (reachable_ok s Hs))|].
    assert (F : Forall (fun r => -98901 <= row_score r h <= 106893) (rows s)).
    { apply Forall_lookup. intros i r Hr.
      exact (proj2 (reachable_row_score_bounds s i r h Hs Hr)). }
    pose proof (sum_scores_bounds _ _ _ _ F) as B.
    rewrite (ok_length s (reachable_ok s Hs)) in B. unfold ROUNDS in B.
    change (2 ^ 53) with 9007199254740992. lia.
Qed.

Lemma scores_are_bounded_witness :
  run fresh [CellInput 0 K_y "5"; PickerPlusClick; PickerPlusClick; DoneClick;
             CellInput 1 K_redSum "-4"] = Some second_round_open
  /\ exists g : Z, gameTotal (rows second_round_open) true = Num g
                   /\ -989010 <= g <= 1068930 /\ Z.abs g < 2 ^ 53.
Proof.
  assert (Hrun : run fresh [CellInput 0 K_y "5"; PickerPlusClick; PickerPlusClick;
                            DoneClick; CellInput 1 K_redSum "-4"]
                 = Some second_round_open) by (vm_compute; reflexivity).
  split; [exact Hrun|].
  exact (proj2 (scores_are_bounded second_round_open true (ex_intro _ _ Hrun))).
Defined.

(** ** The sign button, and typing into the cells *)


Lemma set_key_twice (r : row) (k : key) (v w : value) :
  set_key (set_key r k v) k w = set_key r k w.
Proof. destruct k; reflexivity. Qed.

Lemma set_key_same (r : row) (k : key) : set_key r k (get_key r k) = r.
Proof. destruct r, k; reflexivity. Qed.

Lemma with_rows_same (s : session) : with_rows s (rows s) = s.
Proof. destruct s; reflexivity. Qed.

Lemma RedSignClick_at (s : session) (i : nat) (r : row) :
  rows s !! i = Some r -> locked r = false ->
  i = activeRound s -> i <> 0%nat ->
  on_event s (RedSignClick i) =
  Some (with_rows s (<[i := set_key r K_redSum
                            (js_neg (js_or (to_number (redSum r)) (Num 0)))]>
                       (rows s))).
Proof.
  intros Hr Hl Ea E0. cbn [on_event]. rewrite Hr, Hl.
  destruct (Nat.eqb_spec i (activeRound s)); [| contradiction].
  destruct (Nat.eqb_spec i 0); [contradiction|]. cbn [negb andb].
  rewrite (setField_at _ _ _ _ _ Hr), Hl. reflexivity.
Qed.

Lemma RedSignClick_inv (s s1 : session) (i : nat) (r : row) :
  rows s !! i = Some r -> on_event s (RedSignClick i) = Some s1 ->
  locked r = false /\ i = activeRound s /\ i <> 0%nat.
Proof.
  intros Hr He. cbn [on_event] in He. rewrite Hr in He.
  destruct (locked r); [discriminate He|].
  destruct (Nat.eqb_spec i (activeRound s)); [| discriminate He].
  destruct (Nat.eqb_spec i 0); [discriminate He|]. auto.
Qed.



Lemma retyped_all : forallb retyped_ok three_digit_numbers = true.
Proof. vm_compute. reflexivity. Qed.

(** Typing the numeral of a number of at most three digits gives the
    number back; a cell that takes no sign gives its absolute value. *)
Lemma retype_value (n : Z) :
  0 <= n <= 999 ->
  coerce false (input_text (Num n)) = Num n
  /\ coerce true (input_text (Num n)) = Num n
  /\ coerce false (input_text (Num (- n))) = Num n
  /\ coerce true (input_text (Num (- n))) = Num (- n).
Proof.
  intros Hn.
  assert (Hin : In n three_digit_numbers).
  { unfold three_digit_numbers. apply in_map_iff. exists (Z.to_nat n).
    split; [lia | apply in_seq; lia]. }
  pose proof (proj1 (forallb_forall retyped_ok three_digit_numbers) retyped_all n Hin) as H.
  unfold retyped_ok in H.
  destruct (coerce false (input_text (Num n))) as [a | | | |]; try discriminate H.
  destruct (coerce true (input_text (Num n))) as [b | | | |]; try discriminate H.
  destruct (coerce false (input_text (Num (- n)))) as [c | | | |]; try discriminate H.
  destruct (coerce true (input_text (Num (- n)))) as [d | | | |]; try discriminate H.
  apply andb_prop in H as [H Hd]. apply andb_prop in H as [H Hc].
  apply andb_prop in H as [Ha Hb].
  apply Z.eqb_eq in Ha, Hb, Hc, Hd. subst. repeat split; reflexivity.
Qed.

(** X7.  In a game, typing into an enabled cell the text the cell is
    showing changes nothing: the displayed numeral of every stored
    number reads back as that number.  (The one exception is a red sum
    of [-0], shown as "0" and read back as 0.) *)
Theorem retyping_shown_text (s : session) (i : nat) (r : row) (k : key) :
  reachable s -> rows s !! i = Some r ->
  cell_disabled s i r k = false ->
  get_key r k <> NegZero ->
  on_event s (CellInput i k (input_text (get_key r k))) = Some s.
Proof.
  intros Hs Hr Hen Hnz.
  rewrite (CellInput_at _ _ _ _ _ Hr), Hen. f_equal.
  destruct (reachable_fields s i r Hs Hr) as (Hd & [Frs Hrs] & _).
  assert (E : coerce (match k with K_redSum => true | _ => false end)
                     (input_text (get_key r k)) = get_key r k).
  { assert (Dk : k = K_redSum \/ k <> K_redSum)
      by (destruct k; first [left; reflexivity | right; discriminate]).
    destruct Dk as [-> | Hk].
    - cbn [get_key] in *. destruct (redSum r) as [z | | | |];
        try discriminate Frs; [| contradiction].
      cbn [mag] in Hrs. destruct (Z_le_gt_dec 0 z) as [Hz | Hz].
      + apply (retype_value z). lia.
      + replace z with (- (- z)) by lia. apply (retype_value (- z)). lia.
    - destruct (Hd k Hk) as (n & En & Hn). rewrite En.
      destruct k; try contradiction; apply (retype_value n Hn). }
  rewrite E, set_key_same, (list_insert_id _ _ _ Hr). apply with_rows_same.
Qed.

Lemma retyping_shown_text_witness :
  run fresh [CellInput 0 K_y "5"; PickerPlusClick; PickerPlusClick; DoneClick;
             CellInput 1 K_redSum "-4"] = Some second_round_open
  /\ input_text (Num (-4)) = "-4"
  /\ on_event second_round_open (CellInput 1 K_redSum "-4") = Some second_round_open.
Proof.
  assert (Hrun : run fresh [CellInput 0 K_y "5"; PickerPlusClick; PickerPlusClick;
                            DoneClick; CellInput 1 K_redSum "-4"]
                 = Some second_round_open) by (vm_compute; reflexivity).
  split; [exact Hrun|]. split; [reflexivity|].
  refine (retyping_shown_text second_round_open 1 _ K_redSum
            (ex_intro _ _ Hrun) eq_refl eq_refl _).
  discriminate.
Defined.

Lemma strip_app (a b : string) :
  strip_non_digits (a ++ b) = strip_non_digits a ++ strip_non_digits b.
Proof.
  induction a as [| c a IH]; [reflexivity|].
  cbn [append strip_non_digits]. destruct (is_digit c); rewrite IH; reflexivity.
Qed.

Lemma strip_idempotent (a : string) :
  strip_non_digits (strip_non_digits a) = strip_non_digits a.
Proof.
  induction a as [| c a IH]; [reflexivity|].
  cbn [strip_non_digits]. destruct (is_digit c) eqn:E; [| exact IH].
  cbn [strip_non_digits]. rewrite E, IH. reflexivity.
Qed.

Lemma slice_to_app (n : nat) (a b : string) :
  (n <= String.length a)%nat -> slice_to n (a ++ b) = slice_to n a.
Proof.
  revert a. induction n as [| n IH]; intros a H.
  - destruct a; destruct b; reflexivity.
  - destruct a as [| c a]; [cbn in H; lia|].
    cbn [append slice_to]. rewrite IH by (cbn in H; lia). reflexivity.
Qed.

Lemma capped_digits_app (n : nat) (body extra : string) :
  (n <= String.length (strip_non_digits body))%nat ->
  slice_to n (strip_non_digits (body ++ extra))
  = slice_to n (strip_non_digits body).
Proof. intros H. rewrite strip_app. apply slice_to_app, H. Qed.

Lemma strip_after_minus (t : string) :
  startsWith_minus t = true ->
  strip_non_digits (slice_from_1 t) = strip_non_digits t.
Proof.
  destruct t as [| c t]; [discriminate|]. cbn [startsWith_minus]. intros H.
  apply Ascii.eqb_eq in H. subst c. reflexivity.
Qed.

(** X8.  Once a text holds three digits, whatever is typed after it is
    ignored by the cells: the stored number does not change.  The same
    holds for the default number of red dice once the text holds two
    digits. *)
Theorem digits_beyond_cap_ignored (allowNegative : bool) (text extra : string) :
  ((3 <= String.length (strip_non_digits text))%nat ->
     coerce allowNegative (text ++ extra) = coerce allowNegative text)
  /\ ((2 <= String.length (strip_non_digits text))%nat ->
        defaultRed_onChange (text ++ extra) = defaultRed_onChange text).
Proof.
  split.
  - intros H. destruct text as [| c t]; [cbn in H; lia|].
    unfold coerce. cbv zeta.
    change (startsWith_minus (String c t ++ extra))
      with (startsWith_minus (String c t)).
    destruct (allowNegative && startsWith_minus (String c t)) eqn:S.
    + apply andb_prop in S as [_ S].
      change (slice_from_1 (String c t ++ extra))
        with (slice_from_1 (String c t) ++ extra).
      rewrite capped_digits_app
        by (rewrite (strip_after_minus _ S); exact H).
      reflexivity.
    + rewrite capped_digits_app by exact H. reflexivity.
  - intros H. unfold defaultRed_onChange. cbv zeta.
    rewrite capped_digits_app by exact H. reflexivity.
Qed.

Lemma digits_beyond_cap_ignored_witness :
  (3 <= String.length (strip_non_digits "-1a2b3"))%nat
  /\ coerce true ("-1a2b3" ++ "45") = coerce true "-1a2b3".
Proof.
  assert (H : (3 <= String.length (strip_non_digits "-1a2b3"))%nat)
    by (vm_compute; lia).
  split; [exact H|].
  exact (proj1 (digits_beyond_cap_ignored true "-1a2b3" "45") H).
Defined.

(** X9.  Whatever is typed into "# Red Dice (default)", the value given
    to [setDefaultRedCount] is an integer from 0 to 99: only the digits
    of the text count (a minus sign is dropped with the other
    characters), and a text without a digit gives 0. *)
Theorem default_red_input_value (text : string) :
  (exists d : Z, defaultRed_onChange text = Num d /\ 0 <= d <= 99
                 /\ d = digits_value 0 (slice_to 2 (strip_non_digits text)))
  /\ defaultRed_onChange (strip_non_digits text) = defaultRed_onChange text
  /\ (forall s : session,
        exists s' : session,
          on_event s (DefaultRedInput text) = Some s'
          /\ rows s' = rows s /\ activeRound s' = activeRound s
          /\ defaultRedCount s' = defaultRed_onChange text)
  /\ (is_empty (strip_non_digits text) = true ->
        defaultRed_onChange text = Num 0).
Proof.
  split; [| split; [| split]].
  - unfold defaultRed_onChange. cbv zeta.
    set (capped := slice_to 2 (strip_non_digits text)).
    assert (Hd : all_digits capped = true)
      by (apply slice_to_all_digits, strip_all_digits).
    assert (Hl : (String.length capped <= 2)%nat) by apply slice_to_length.
    pose proof (digits_value_capped 2 capped Hd Hl) as Hr.
    change (10 ^ Z.of_nat 2 - 1) with 99 in Hr.
    destruct (is_empty capped) eqn:He.
    + exists 0. split; [reflexivity|]. split; [lia|].
      destruct capped; [reflexivity | discriminate He].
    + rewrite (parseInt_digits _ Hd He). cbn [Number_isFinite].
      eexists. split; [reflexivity|]. split; [exact Hr | reflexivity].
  - unfold defaultRed_onChange. cbv zeta. rewrite strip_idempotent. reflexivity.
  - intros s. eexists. split; [reflexivity|]. repeat split.
  - intros H. unfold defaultRed_onChange. cbv zeta.
    destruct (strip_non_digits text); [reflexivity | discriminate H].
Qed.

(** X10.  For a number of red dice from 0 to 99 the "+" of the picker
    adds one up to 99 and the "−" takes one off down to 0, so each
    undoes the other away from the two ends; on a value that is not a
    number ([undefined], NaN) or that is [-0] they give 1 and 0. *)
Theorem picker_steps (d : Z) :
  0 <= d <= 99 ->
  picker_plus (Num d) = Num (Z.min 99 (d + 1))
  /\ picker_minus (Num d) = Num (Z.max 0 (d - 1))
  /\ (d < 99 -> picker_minus (picker_plus (Num d)) = Num d)
  /\ (0 < d -> picker_plus (picker_minus (Num d)) = Num d)
  /\ (forall v : value, truthy v = false ->
        picker_plus v = Num 1 /\ picker_minus v = Num 0).
Proof.
  intros Hd.
  assert (P : forall x : Z, 0 <= x <= 99 ->
                picker_plus (Num x) = Num (Z.min 99 (x + 1)))
    by (intros x Hx; exact (proj1 (picker_values x Hx))).
  assert (M : forall x : Z, 0 <= x <= 99 ->
                picker_minus (Num x) = Num (Z.max 0 (x - 1)))
    by (intros x Hx; exact (proj2 (picker_values x Hx))).
  split; [exact (P d Hd)|]. split; [exact (M d Hd)|].
  split; [| split].
  - intros H. rewrite (P d Hd), M by lia. f_equal. lia.
  - intros H. rewrite (M d Hd), P by lia. f_equal. lia.
  - intros v Hv. unfold picker_plus, picker_minus, js_or. rewrite Hv.
    split; reflexivity.
Qed.

Lemma picker_steps_witness :
  0 <= 98 <= 99
  /\ picker_plus (Num 98) = Num 99
  /\ picker_minus (picker_plus (Num 98)) = Num 98.
Proof.
  assert (H : 0 <= 98 <= 99) by lia.
  destruct (picker_steps 98 H) as (P & _ & B & _).
  split; [exact H|]. split; [exact P | apply B; lia].
Defined.

(** ** Scores *)

Lemma row_score_glitter (r : row) :
  row_score r true = row_score r false + mag (blue r).
Proof. unfold row_score, blue_weight. lia. Qed.

Lemma sum_scores_glitter (l : list row) :
  sum_scores l true = sum_scores l false + sum_mag (map blue l).
Proof.
  unfold sum_mag. induction l as [| r l IH]; [reflexivity|].
  cbn [sum_scores map fold_right]. rewrite IH, row_score_glitter. lia.
Qed.

(** X11.  In every state of a game the glitter-blue checkbox changes no
    round, and it counts for all rounds at once, locked or not: with
    the box ticked the game total is the total without it plus the blue
    of every round once more.  (The numbers of a game are small enough
    for the sums to be exact.) *)
Theorem glitter_counts_every_blue_again (s : session) :
  reachable s ->
  exists s0 s1 : session,
    on_event s (GlitterChange false) = Some s0
    /\ on_event s (GlitterChange true) = Some s1
    /\ rows s0 = rows s /\ rows s1 = rows s
    /\ gameTotal (rows s0) (hasGlitterBlue s0) = Num (sum_scores (rows s) false)
    /\ gameTotal (rows s1) (hasGlitterBlue s1)
       = Num (sum_scores (rows s) false + sum_mag (map blue (rows s))).
Proof.
  intros Hs. pose proof (reachable_ok s Hs) as Hok.
  eexists. eexists. split; [reflexivity|]. split; [reflexivity|].
  cbn [rows hasGlitterBlue]. split; [reflexivity|]. split; [reflexivity|].
  rewrite !(session_ok_gameTotal s _ Hok), sum_scores_glitter.
  split; reflexivity.
Qed.

Lemma glitter_counts_every_blue_again_witness :
  run fresh [DoneClick; CellInput 1 K_y "5"; CellInput 1 K_blue "7"; DoneClick;
             DoneClick; CellInput 3 K_blue "2"] = Some two_blue_rounds
  /\ gameTotal (rows two_blue_rounds) false = Num 14
  /\ gameTotal (rows two_blue_rounds) true = Num (14 + 9).
Proof.
  assert (Hrun : run fresh [DoneClick; CellInput 1 K_y "5"; CellInput 1 K_blue "7";
                            DoneClick; DoneClick; CellInput 3 K_blue "2"]
                 = Some two_blue_rounds) by (vm_compute; reflexivity).
  split; [exact Hrun|].
  destruct (glitter_counts_every_blue_again two_blue_rounds (ex_intro _ _ Hrun))
    as (s0 & s1 & E0 & E1 & _ & _ & G0 & G1).
  apply (inj Some) in E0. apply (inj Some) in E1. subst s0 s1.
  split; [exact G0 | exact G1].
Defined.

Lemma row_score_set_key (r : row) (h : bool) (k : key) (v : value) :
  row_score (set_key r k v) h
  = row_score r h + (mag v - mag (get_key r k)) * weight r h k.
Proof.
  destruct k; unfold row_score, weight;
    cbn [set_key get_key y purp blue redSum redCount green clear pink]; ring.
Qed.

Lemma row_score_lock_row (r : row) (h : bool) (n : value) :
  row_score (lock_row r n) h
  = row_score r h + mag (redSum r) * (mag n - mag (redCount r)).
Proof.
  unfold row_score, lock_row;
    cbn [y purp blue redSum redCount green clear pink]; ring.
Qed.

Lemma bounded_set_key (B : Z) (r : row) (k : key) (v : value) :
  bounded_row B r -> Z.abs (mag v) <= B -> bounded_row B (set_key r k v).
Proof.
  unfold bounded_row, dice_fields. rewrite !Forall_cons.
  intros (Hrc&Hy&Hp&Hb&Hrs&Hg&Hc&Hk&_) Hv.
  destruct k; cbn [set_key y purp blue redSum redCount green clear pink];
    repeat (split; [assumption|]); constructor.
Qed.

Lemma bounded_lock_row (B : Z) (r : row) (n : value) :
  bounded_row B r -> Z.abs (mag n) <= B -> bounded_row B (lock_row r n).
Proof.
  unfold bounded_row, dice_fields. rewrite !Forall_cons.
  intros (Hrc&Hy&Hp&Hb&Hrs&Hg&Hc&Hk&_) Hv.
  unfold lock_row; cbn [y purp blue redSum redCount green clear pink];
    repeat (split; [assumption|]); constructor.
Qed.

(** X12.  As long as the numbers stay in the range where doubles add
    and multiply exactly (every field and the new value at most [B] in
    magnitude, [B * B + 8 * B < 2^53]), the row total is additive in its
    fields: replacing one dice field changes the total by the change of
    that field times its weight (1 for yellow, green, clear and pink, 2
    for purple, 1 or 2 for blue, the red count for the red sum), and
    locking a round changes it by the red sum times the change of the
    red count.  A value that is not a finite number counts as 0 on
    either side. *)
Theorem row_total_is_additive
    (r : row) (h : bool) (k : key) (v n : value) (B : Z) :
  B * B + 8 * B < 2 ^ 53 ->
  bounded_row B r -> Z.abs (mag v) <= B -> Z.abs (mag n) <= B ->
  mag (computeRowTotal (set_key r k v) h)
  = mag (computeRowTotal r h) + (mag v - mag (get_key r k)) * weight r h k
  /\ mag (computeRowTotal (lock_row r n) h)
     = mag (computeRowTotal r h) + mag (redSum r) * (mag n - mag (redCount r)).
Proof.
  intros HB Hr Hv Hn.
  destruct (computeRowTotal_finite_mag r h B HB Hr) as (_ & E & _).
  destruct (computeRowTotal_finite_mag _ h B HB (bounded_set_key B r k v Hr Hv))
    as (_ & Es & _).
  destruct (computeRowTotal_finite_mag _ h B HB (bounded_lock_row B r n Hr Hn))
    as (_ & El & _).
  rewrite E, Es, El.
  split; [apply row_score_set_key | apply row_score_lock_row].
Qed.

Lemma row_total_is_additive_witness :
  999 * 999 + 8 * 999 < 2 ^ 53
  /\ mag (computeRowTotal (set_key sample_row K_redSum (Num 2)) true)
     = -10 + (2 - -7) * 3
  /\ mag (computeRowTotal (lock_row sample_row NaN) true) = -10 + -7 * (0 - 3).
Proof.
  split; [exact bound_999|].
  refine (row_total_is_additive sample_row true K_redSum (Num 2) NaN 999
            bound_999 _ _ _).
  - repeat constructor; vm_compute; discriminate.
  - vm_compute; discriminate.
  - vm_compute; discriminate.
Defined.

(** X13.  What "Done" locks in is what the sheet was showing: in a game,
    the number of red dice shown for the active round before it is
    completed is the number shown for it afterwards, and stays so
    however the default is changed later; the total then shown for the
    round is its score without red dice plus its red sum times that
    number. *)
Theorem done_locks_in_shown_red_dice
    (s s' s'' : session) (r : row) (es : list event) :
  reachable s -> rows s !! activeRound s = Some r ->
  on_event s DoneClick = Some s' ->
  run s' es = Some s'' -> Forall (fun e => is_reset e = false) es ->
  row_total_shown s r = None
  /\ exists r'' : row,
       rows s'' !! activeRound s = Some r''
       /\ red_dice_shown s'' r'' = red_dice_shown s r
       /\ red_dice_shown s r = defaultRedCount s
       /\ row_total_shown s'' r''
          = Some (Num (row_score r (hasGlitterBlue s'')
                       + mag (redSum r) * mag (defaultRedCount s))).
Proof.
  intros Hs Hr He Hrun Hes.
  assert (Hl : locked r = false).
  { cbn [on_event] in He. rewrite Hr in He.
    destruct (locked r); [discriminate He | reflexivity]. }
  cbn [on_event] in He. rewrite Hr, Hl in He. cbn [negb] in He.
  rewrite (doneRound_at _ _ Hr) in He. apply (inj Some) in He.
  destruct (reachable_fields s _ r Hs Hr) as (Hd & _ & _ & (d & Ed & Hdr)).
  pose proof (reachable_ok s Hs) as Hok.
  pose proof (ok_unlocked r (Forall_lookup_1 _ _ _ _ (ok_rows s Hok) Hr) Hl) as Hrc.
  assert (Hr' : rows s' !! activeRound s = Some (lock_row r (defaultRedCount s))).
  { subst s'. cbn [rows].
    apply list_lookup_insert_eq, (lookup_lt_Some _ _ _ Hr). }
  pose proof (run_keeps_locked es s' s'' _ _ Hrun Hes Hr' eq_refl) as Hr''.
  split; [unfold row_total_shown; rewrite Hl; reflexivity|].
  exists (lock_row r (defaultRedCount s)). split; [exact Hr''|].
  assert (Shown : red_dice_shown s r = defaultRedCount s)
    by (unfold red_dice_shown; rewrite Hl; reflexivity).
  split; [| split; [exact Shown|]].
  - rewrite Shown. unfold red_dice_shown, js_or. cbn [locked lock_row redCount].
    rewrite Ed. cbn [truthy].
    destruct (Z.eqb_spec d 0) as [-> | ?]; reflexivity.
  - unfold row_total_shown. cbn [locked lock_row]. f_equal.
    destruct (Hd K_y ltac:(discriminate)) as (ny & Ey & _). cbn [get_key] in Ey.
    assert (Hb : bounded_row 999 (lock_row r (defaultRedCount s))).
    { apply bounded_lock_row; [exact (reachable_bounded s _ r Hs Hr)|].
      rewrite Ed. cbn [mag]. apply Z.abs_le. lia. }
    rewrite (computeRowTotal_Num _ _ 999 ny bound_999 Hb) by exact Ey.
    rewrite row_score_lock_row, Hrc. cbn [mag]. f_equal. lia.
Qed.

Lemma done_locks_in_shown_red_dice_witness :
  let es0 := [CellInput 0 K_y "5"; PickerPlusClick; PickerPlusClick] in
  let es := [CellInput 1 K_redSum "-4"] in
  exists s : session,
    run fresh es0 = Some s
    /\ on_event s DoneClick
       = Some (mkSession (lock_row (set_key makeBlankRow K_y (Num 5)) (Num 2)
                            :: makeBlankRows 9) 1 (Num 2) "Player" false)
    /\ red_dice_shown second_round_open
         (lock_row (set_key makeBlankRow K_y (Num 5)) (Num 2)) = Num 2.
Proof.
  intros es0 es.
  set (s := mkSession (set_key makeBlankRow K_y (Num 5) :: makeBlankRows 9)
                      0 (Num 2) "Player" false).
  assert (Hrun0 : run fresh es0 = Some s) by (vm_compute; reflexivity).
  exists s. split; [exact Hrun0|]. split; [reflexivity|].
  destruct (done_locks_in_shown_red_dice s _ second_round_open
              (set_key makeBlankRow K_y (Num 5)) es
              (ex_intro _ _ Hrun0) eq_refl eq_refl eq_refl
              ltac:(repeat constructor))
    as (_ & r'' & Hr'' & Hshown & Hdef & _).
  apply (inj Some) in Hr''. subst r''. rewrite Hshown, Hdef. reflexivity.
Defined.

(** ** Saving and loading a game *)

Lemma json_of_value_finite (v : value) :
  finite v -> json_of_value v = Some (JNum (mag v)).
Proof. destruct v; intros H; try discriminate H; reflexivity. Qed.

Lemma plus_zero_finite (v : value) : finite v -> plus_zero v = Num (mag v).
Proof. destruct v; intros H; try discriminate H; reflexivity. Qed.

Lemma plus_zero_mag (v : value) : mag (plus_zero v) = mag v.
Proof. destruct v; reflexivity. Qed.

Lemma digits_ok_finite (v : value) : digits_ok v -> finite v.
Proof. intros (n & -> & _). reflexivity. Qed.

Lemma count_ok_finite (v : value) : count_ok v -> finite v.
Proof. intros (n & -> & _). reflexivity. Qed.

Lemma row_round_trip (r : row) :
  fields_finite r -> row_of_json (json_of_row r) = Some (reloaded_row r).
Proof.
  intros (Fy & Fp & Fb & Frs & Frc & Fg & Fc & Fk).
  unfold json_of_row, reloaded_row.
  rewrite !json_of_value_finite, !plus_zero_finite by assumption.
  reflexivity.
Qed.

Lemma rows_round_trip (l : list row) :
  Forall fields_finite l ->
  mapM row_of_json (map json_of_row l) = Some (map reloaded_row l).
Proof.
  intros H. induction H as [| r l Hr Hl IH]; [reflexivity|].
  cbn [map mapM]. rewrite (row_round_trip r Hr), IH. reflexivity.
Qed.

Lemma load_snapshot (s : session) (d : Z) :
  defaultRedCount s = Num d ->
  load (Parsed (snapshot s))
  = mkUstate (JArr (map json_of_row (rows s)))
             (JNum (Z.of_nat (activeRound s)))
             (JNum d)
             (JStr (if is_empty (playerName s) then "Player" else playerName s))
             (hasGlitterBlue s).
Proof.
  intros Ed. unfold load, load_effect, snapshot. rewrite Ed.
  cbn [json_of_value prop app json_truthy get_prop assoc String.eqb Ascii.eqb
       Bool.eqb or_default nullish_default to_bool].
  f_equal.
  - destruct (Z.eqb_spec (Z.of_nat (activeRound s)) 0) as [E | E];
      [rewrite E|]; reflexivity.
  - destruct (playerName s); reflexivity.
Qed.

Lemma reachable_fields_finite (s : session) :
  reachable s -> Forall fields_finite (rows s).
Proof.
  intros Hs. apply Forall_lookup. intros i r Hr.
  destruct (reachable_fields s i r Hs Hr) as (Hd & [Frs _] & Hc & _).
  pose proof (fun k Hk => digits_ok_finite _ (Hd k Hk)) as F.
  pose proof (F K_y ltac:(discriminate)).
  pose proof (F K_purp ltac:(discriminate)).
  pose proof (F K_blue ltac:(discriminate)).
  pose proof (F K_green ltac:(discriminate)).
  pose proof (F K_clear ltac:(discriminate)).
  pose proof (F K_pink ltac:(discriminate)).
  cbn [get_key] in *. pose proof (count_ok_finite _ Hc).
  unfold fields_finite. auto 10.
Qed.

Lemma sum_scores_reloaded (l : list row) (h : bool) :
  sum_scores (map reloaded_row l) h = sum_scores l h.
Proof.
  induction l as [| r l IH]; [reflexivity|].
  cbn [map sum_scores]. rewrite IH. f_equal.
  unfold row_score, reloaded_row.
  cbn [y purp blue redSum redCount green clear pink].
  rewrite !plus_zero_mag. reflexivity.
Qed.

Lemma bounded_reloaded_row (B : Z) (r : row) :
  bounded_row B r -> bounded_row B (reloaded_row r).
Proof.
  unfold bounded_row, dice_fields, reloaded_row.
  cbn [y purp blue redSum redCount green clear pink].
  rewrite !Forall_cons, !plus_zero_mag. exact (fun H => H).
Qed.

Lemma gameTotal_reloaded (l : list row) (h : bool) (B : Z) :
  Forall (bounded_row B) l ->
  Z.of_nat (length l) * (B * B + 8 * B) < 2 ^ 53 ->
  gameTotal (map reloaded_row l) h = gameTotal l h.
Proof.
  intros HB HL.
  rewrite (gameTotal_Num l h B HB HL).
  rewrite (gameTotal_Num (map reloaded_row l) h B).
  - rewrite sum_scores_reloaded. reflexivity.
  - apply Forall_map. eapply Forall_impl; [exact HB|].
    exact (bounded_reloaded_row B).
  - rewrite length_map. exact HL.
Qed.

Lemma map_reloaded_id (l : list row) :
  Forall (fun r => reloaded_row r = r) l -> map reloaded_row l = l.
Proof.
  intros F. induction F as [| r l Hr Hl IH]; [reflexivity|].
  cbn [map]. rewrite Hr, IH. reflexivity.
Qed.

(** X14.  A game that was saved loads back as the same game: the
    snapshot the persist effect stores, put through the load effect,
    gives the rounds, the active round, the default number of red dice
    and the glitter flag that were saved.  Two things are not kept: a
    red sum of [-0] comes back as 0 and an empty player name comes back
    as "Player"; neither changes a score. *)
Theorem saved_game_loads_back (s : session) (h : bool) :
  reachable s ->
  session_of_ustate (load (Parsed (snapshot s))) = Some (reloaded s)
  /\ gameTotal (rows (reloaded s)) h = gameTotal (rows s) h
  /\ activeRound (reloaded s) = activeRound s
  /\ defaultRedCount (reloaded s) = defaultRedCount s
  /\ hasGlitterBlue (reloaded s) = hasGlitterBlue s
  /\ ((forall (i : nat) (r : row), rows s !! i = Some r -> redSum r <> NegZero) ->
      is_empty (playerName s) = false ->
      reloaded s = s).
Proof.
  intros Hs.
  pose proof (reachable_ok s Hs) as Hok.
  destruct (ok_default s Hok) as (d & Ed & Hd).
  split.
  { rewrite (load_snapshot s d Ed). unfold session_of_ustate.
    cbn [u_rows u_activeRound u_playerName u_defaultRedCount u_hasGlitterBlue].
    destruct (Z.leb_spec 0 (Z.of_nat (activeRound s))) as [_ | Hneg]; [| lia].
    rewrite (rows_round_trip _ (reachable_fields_finite s Hs)).
    cbn [value_of_json]. unfold reloaded. rewrite Nat2Z.id, Ed. reflexivity. }
  split; [cbn [rows reloaded];
          exact (gameTotal_reloaded (rows s) h 999
                   (proj1 (session_ok_bounded s Hok))
                   (proj2 (session_ok_bounded s Hok)))|].
  split; [reflexivity|].
  split; [cbn [defaultRedCount reloaded]; rewrite Ed; reflexivity|].
  split; [reflexivity|].
  intros Hnz Hname. unfold reloaded. rewrite Hname, Ed. cbn [plus_zero].
  assert (R : map reloaded_row (rows s) = rows s).
  { assert (F : Forall (fun r => reloaded_row r = r) (rows s)).
    { apply Forall_lookup. intros i r Hr.
      destruct (reachable_fields s i r Hs Hr) as (Hdg & [Frs _] & (c & Ec & _) & _).
      destruct (Hdg K_y ltac:(discriminate)) as (? & E1 & _).
      destruct (Hdg K_purp ltac:(discriminate)) as (? & E2 & _).
      destruct (Hdg K_blue ltac:(discriminate)) as (? & E3 & _).
      destruct (Hdg K_green ltac:(discriminate)) as (? & E4 & _).
      destruct (Hdg K_clear ltac:(discriminate)) as (? & E5 & _).
      destruct (Hdg K_pink ltac:(discriminate)) as (? & E6 & _).
      pose proof (Hnz i r Hr) as Hrs.
      destruct r as [a b c0 rs rc g cl pk lk]. cbn in *. subst.
      unfold reloaded_row. cbn.
      destruct rs; try discriminate Frs; [reflexivity | contradiction]. }
    exact (map_reloaded_id _ F). }
  rewrite R, <- Ed. destruct s; reflexivity.
Qed.

Lemma saved_game_loads_back_witness :
  run fresh [CellInput 0 K_y "5"; PickerPlusClick; PickerPlusClick; DoneClick;
             CellInput 1 K_redSum "-4"] = Some second_round_open
  /\ session_of_ustate (load (Parsed (snapshot second_round_open)))
     = Some second_round_open.
Proof.
  assert (Hrun : run fresh [CellInput 0 K_y "5"; PickerPlusClick; PickerPlusClick;
                            DoneClick; CellInput 1 K_redSum "-4"]
                 = Some second_round_open) by (vm_compute; reflexivity).
  split; [exact Hrun|].
  exact (proj1 (saved_game_loads_back second_round_open false (ex_intro _ _ Hrun))).
Defined.

(** ** Reading the export back *)

(** X15.  The export of a game is made of numerals that read back as
    the numbers of the game: in the line of each round the ten cells
    are the round number, yellow, twice purple, blue times its weight,
    the red sum, the red count, green, clear, pink and the row total,
    so that the last cell is the first, third, fourth and the last
    three dice cells added to red sum times red count; and the last
    cell of the footer is the sum of the row totals. *)
Theorem export_reads_back (s : session) (i : nat) (r : row) :
  reachable s -> rows s !! i = Some r ->
  let h := hasGlitterBlue s in
  csv_rows (exportCSV_text s) !! S i = Some (csv_line h i r)
  /\ map read_Z (csv_line h i r)
     = map Some [Z.of_nat i + 1; mag (y r); mag (purp r) * 2;
                 mag (blue r) * blue_weight h; mag (redSum r);
                 mag (redCount r); mag (green r); mag (clear r);
                 mag (pink r);
                 mag (y r) + mag (purp r) * 2 + mag (blue r) * blue_weight h
                 + mag (redSum r) * mag (redCount r)
                 + mag (green r) + mag (clear r) + mag (pink r)]
  /\ exists last : string,
       csv_rows (exportCSV_text s) !! 11%nat
       = Some [""; ""; ""; ""; ""; ""; ""; ""; "Total"; last]
       /\ read_Z last = Some (sum_scores (rows s) h).
Proof.
  intros Hs Hr h.
  pose proof (reachable_ok s Hs) as Hok.
  split; [exact (csv_rows_line _ _ _ _ i r Hr)|].
  split.
  - exact (csv_line_reads_back h i r 999 bound_999
             (reachable_bounded s i r Hs Hr)
             (Forall_lookup_1 _ _ _ _ (reachable_fields_finite s Hs) Hr)).
  - exists (cell_text (gameTotal (rows s) h)). split.
    + pose proof (csv_rows_footer (playerName s) (rows s) h
                    (gameTotal (rows s) h)) as Hf.
      rewrite (ok_length s Hok) in Hf. exact Hf.
    + rewrite (session_ok_gameTotal s h Hok).
      apply (read_cell (Num (sum_scores (rows s) h)) eq_refl).
      cbn [mag].
      assert (F : Forall (fun r => -98901 <= row_score r h <= 106893) (rows s)).
      { apply Forall_lookup. intros j rj Hj.
        exact (proj2 (reachable_row_score_bounds s j rj h Hs Hj)). }
      pose proof (sum_scores_bounds _ _ _ _ F) as Bd.
      rewrite (ok_length s Hok) in Bd. unfold ROUNDS in Bd.
      change (2 ^ 53) with 9007199254740992. lia.
Qed.

Lemma export_reads_back_witness :
  run fresh [CellInput 0 K_y "5"; PickerPlusClick; PickerPlusClick; DoneClick;
             CellInput 1 K_redSum "-4"] = Some second_round_open
  /\ map read_Z (csv_line false 1 (set_key makeBlankRow K_redSum (Num (-4))))
     = map Some [2; 0; 0; 0; -4; 0; 0; 0; 0; 0].
Proof.
  assert (Hrun : run fresh [CellInput 0 K_y "5"; PickerPlusClick; PickerPlusClick;
                            DoneClick; CellInput 1 K_redSum "-4"]
                 = Some second_round_open) by (vm_compute; reflexivity).
  split; [exact Hrun|].
  exact (proj1 (proj2 (export_reads_back second_round_open 1 _
                         (ex_intro _ _ Hrun) eq_refl))).
Defined.

(** ** Counting the completed rounds *)

Lemma locked_count_insert (l : list row) (i : nat) (r r' : row) :
  l !! i = Some r ->
  (locked_count (<[i := r']> l) + (if locked r then 1 else 0)
   = locked_count l + (if locked r' then 1 else 0))%nat.
Proof.
  revert i. induction l as [| a l IH]; intros i Hi; [discriminate Hi|].
  destruct i as [| i].
  - apply (inj Some) in Hi. subst a. cbn [locked_count]. 
    change (<[0%nat := r']> (r :: l)) with (r' :: l). cbn [locked_count]. lia.
  - change (<[S i := r']> (a :: l)) with (a :: <[i := r']> l).
    cbn [locked_count]. specialize (IH i Hi). lia.
Qed.

Lemma locked_count_le (l : list row) : (locked_count l <= length l)%nat.
Proof.
  induction l as [| a l IH]; cbn [locked_count length]; [lia|].
  destruct (locked a); lia.
Qed.

Lemma on_event_counts (s s' : session) (e : event) :
  on_event s e = Some s' -> is_reset e = false ->
  locked_count (rows s')
  = (locked_count (rows s) + (if is_done e then 1 else 0))%nat
  /\ activeRound s'
     = (if is_done e then Nat.min (activeRound s + 1) 9 else activeRound s).
Proof.
  intros He Hn.
  destruct e as [j k text | j | | text | | | c | text | c];
    try discriminate Hn; cbn [is_done].
  - cbn [on_event] in He.
    destruct (rows s !! j) as [rj |] eqn:Hj; [| discriminate He].
    assert (He' : on_event s (CellInput j k text) = Some s')
      by (cbn [on_event]; rewrite Hj; exact He).
    rewrite (CellInput_at _ _ _ _ _ Hj) in He'. apply (inj Some) in He' as <-.
    destruct (cell_disabled s j rj k); [split; [lia | reflexivity]|].
    cbn [rows activeRound with_rows]. split; [| reflexivity].
    pose proof (locked_count_insert (rows s) j rj
                  (set_key rj k (coerce (match k with K_redSum => true | _ => false end) text)) Hj) as C.
    rewrite locked_set_key in C. lia.
  - destruct (rows s !! j) as [rj |] eqn:Hj;
      [| cbn [on_event] in He; rewrite Hj in He; discriminate He].
    destruct (RedSignClick_inv _ _ _ _ Hj He) as (Hl & Ea & E0).
    rewrite (RedSignClick_at _ _ _ Hj Hl Ea E0) in He. apply (inj Some) in He as <-.
    cbn [rows activeRound with_rows]. split; [| reflexivity].
    pose proof (locked_count_insert (rows s) j rj
                  (set_key rj K_redSum (js_neg (js_or (to_number (redSum rj)) (Num 0)))) Hj) as C.
    rewrite locked_set_key in C. lia.
  - cbn [on_event] in He.
    destruct (rows s !! activeRound s) as [ra |] eqn:Ha; [| discriminate He].
    destruct (locked ra) eqn:La; [discriminate He|]. cbn [negb] in He.
    rewrite (doneRound_at _ _ Ha) in He. apply (inj Some) in He as <-.
    cbn [rows activeRound]. split; [| reflexivity].
    pose proof (locked_count_insert (rows s) _ ra
                  (lock_row ra (defaultRedCount s)) Ha) as C.
    rewrite La in C. cbn [locked lock_row] in C. lia.
  - apply (inj Some) in He as <-. split; [cbn; lia | reflexivity].
  - apply (inj Some) in He as <-. split; [cbn; lia | reflexivity].
  - apply (inj Some) in He as <-. split; [cbn; lia | reflexivity].
  - apply (inj Some) in He as <-. split; [cbn; lia | reflexivity].
  - apply (inj Some) in He as <-. split; [cbn; lia | reflexivity].
Qed.

Lemma run_counts (es : list event) (s s' : session) :
  run s es = Some s' -> Forall (fun e => is_reset e = false) es ->
  (activeRound s <= 9)%nat ->
  locked_count (rows s') = (locked_count (rows s) + done_clicks es)%nat
  /\ activeRound s' = Nat.min (activeRound s + done_clicks es) 9.
Proof.
  intros Hrun Hes. revert s Hrun.
  induction Hes as [| e es He Hes IH]; intros s Hrun Ha; cbn [run] in Hrun.
  - apply (inj Some) in Hrun as <-. cbn [done_clicks]. split; lia.
  - destruct (on_event s e) as [s1 |] eqn:E; [| discriminate Hrun].
    destruct (on_event_counts s s1 e E He) as [C A].
    assert (Ha1 : (activeRound s1 <= 9)%nat)
      by (rewrite A; destruct (is_done e); lia).
    destruct (IH s1 Hrun Ha1) as [C' A'].
    cbn [done_clicks]. rewrite C', C, A', A.
    destruct (is_done e); split; lia.
Qed.

(** X16.  From the start of a game, and as long as it is not reset, the
    number of locked rounds is the number of times "Done" was pressed:
    it is at most ten (the button is gone after the tenth), and the
    active round is that number, held at index 9. *)
Theorem done_presses_count_locked_rounds (es : list event) (s : session) :
  run fresh es = Some s -> Forall (fun e => is_reset e = false) es ->
  locked_count (rows s) = done_clicks es
  /\ (done_clicks es <= 10)%nat
  /\ activeRound s = Nat.min (done_clicks es) 9.
Proof.
  intros Hrun Hes.
  destruct (run_counts es fresh s Hrun Hes ltac:(cbn; lia)) as [C A].
  change (locked_count (rows fresh)) with 0%nat in C.
  change (activeRound fresh) with 0%nat in A.
  split; [lia|]. split; [| lia].
  pose proof (locked_count_le (rows s)) as L.
  rewrite (ok_length s (reachable_ok s (ex_intro _ es Hrun))) in L.
  unfold ROUNDS in L. lia.
Qed.

Lemma done_presses_count_locked_rounds_witness :
  run fresh [CellInput 0 K_y "5"; PickerPlusClick; PickerPlusClick; DoneClick;
             CellInput 1 K_redSum "-4"] = Some second_round_open
  /\ locked_count (rows second_round_open) = 1%nat
  /\ activeRound second_round_open = 1%nat.
Proof.
  assert (Hrun : run fresh [CellInput 0 K_y "5"; PickerPlusClick; PickerPlusClick;
                            DoneClick; CellInput 1 K_redSum "-4"]
                 = Some second_round_open) by (vm_compute; reflexivity).
  split; [exact Hrun|].
  destruct (done_presses_count_locked_rounds _ _ Hrun ltac:(repeat constructor))
    as (C & _ & A).
  split; [exact C | exact A].
Defined.

(** ** The minus sign *)

(** X17.  The red-sum cell reads a text that starts with a minus sign
    as the negative of what an unsigned cell reads in the rest of the
    text, and a text that does not start with one exactly as an
    unsigned cell does; an unsigned cell drops a leading minus sign,
    and every cell ignores the characters that are not digits. *)
Theorem minus_sign_reading (t : string) :
  mag (coerce true (String "-" t)) = - mag (coerce false t)
  /\ (startsWith_minus t = false -> coerce true t = coerce false t)
  /\ coerce false (String "-" t) = coerce false t
  /\ coerce false (strip_non_digits t) = coerce false t.
Proof.
  pose proof (coerce_value true (String "-" t)) as [_ H1].
  pose proof (coerce_value false t) as [_ H2].
  pose proof (coerce_value false (String "-" t)) as [_ H3].
  pose proof (coerce_value false (strip_non_digits t)) as [_ H4].
  pose proof (coerce_value true t) as [_ H5].
  cbv zeta in H1, H2, H3, H4, H5.
  cbn [andb startsWith_minus slice_from_1] in H1, H2, H3, H4.
  change (Ascii.eqb "-" "-") with true in H1.
  change (strip_non_digits (String "-" t)) with (strip_non_digits t) in H3.
  rewrite strip_idempotent in H4.
  split; [| split; [| split]].
  - rewrite H1, H2.
    destruct (Z.eqb_spec (digits_value 0 (slice_to 3 (strip_non_digits t))) 0)
      as [E | E]; cbn [mag]; lia.
  - intros Hs. rewrite H5, Hs, H2. reflexivity.
  - rewrite H3, H2. reflexivity.
  - rewrite H4, H2. reflexivity.
Qed.
